(** * The Octave debugger's process-communication engine

    A shallow embedding of [src/Runtime.ts] and [src/Control/Expression.ts]:
    the command counter and the sync markers, the queue of input handlers
    that pairs primary-stream lines with the command that produced them,
    and the event handlers of the secondary stream.

    Conventions of the embedding.
    - A JavaScript string is a [string]: its characters stand for the code
      units 0..255.
    - The command counter is an [N]: JavaScript numbers are exact on the
      integers a session can count to, and print in decimal there.
    - The closures the source stores in its handler arrays are
      defunctionalised: one constructor per closure, holding the variables
      the closure captures, and one function that runs their bodies.
    - Node runs each listener to completion, so every method is a function
      from the state before the call to the state after it.  What the
      engine does to the outside (writes to the child's stdin, log lines,
      emitted signals, calls of the callers' callbacks and predicates) is
      appended to a list kept in the state.
    - A callback or predicate of a caller outside these files is known by
      a number; a predicate is a function of the line alone, and neither
      calls the engine itself.
    - Where a method can throw - [new RegExp] on the text built around an
      expression, [emit('error')] without a listener - what decides it is
      an argument of the function, and the result shows the throw. *)

From Stdlib Require Import String Ascii List Bool Arith NArith ZArith Lia.
From Stdlib Require Import DecimalString DecimalN Sorted.
Import ListNotations.
Open Scope string_scope.

(** ** JavaScript strings *)

Module JS.

(** [s.length] *)
Definition length (s : string) : nat := String.length s.

(** [s.substr(n)], for [n] within the string or past its end. *)
Fixpoint substr (n : nat) (s : string) : string :=
  match n, s with
  | O, _ => s
  | S _, EmptyString => EmptyString
  | S n', String _ s' => substr n' s'
  end.

(** WhiteSpace and LineTerminator code units below 256: TAB, LF, VT, FF,
    CR, SP and NBSP. *)
Definition isWhiteSpace (c : ascii) : bool :=
  match nat_of_ascii c with
  | 9 | 10 | 11 | 12 | 13 | 32 | 160 => true
  | _ => false
  end.

(** LineTerminator code units below 256: LF and CR. *)
Definition isLineTerminator (c : ascii) : bool :=
  match nat_of_ascii c with
  | 10 | 13 => true
  | _ => false
  end.

Fixpoint trimStart (s : string) : string :=
  match s with
  | EmptyString => EmptyString
  | String c s' => if isWhiteSpace c then trimStart s' else s
  end.

Fixpoint trimEnd (s : string) : string :=
  match s with
  | EmptyString => EmptyString
  | String c s' =>
      match trimEnd s' with
      | EmptyString => if isWhiteSpace c then EmptyString else String c EmptyString
      | t => String c t
      end
  end.

(** [s.trim()] *)
Definition trim (s : string) : string := trimEnd (trimStart s).

(** [`${n}`] for a counter value. *)
Definition ofNumber (n : N) : string := NilZero.string_of_uint (N.to_uint n).

(** [`${n}`] for an integer, such as an exit code. *)
Definition ofInteger (n : Z) : string := NilZero.string_of_int (Z.to_int n).

(** [s] begins with [p]. *)
Definition startsWith (p s : string) : Prop := exists z, s = p ++ z.

(** [s.repeat(n)] *)
Fixpoint repeat (s : string) (n : nat) : string :=
  match n with
  | O => EmptyString
  | S n' => s ++ repeat s n'
  end.

End JS.

(** ** Regular expressions

    The patterns of the source use only literals, [.], [\S], groups, [*],
    [+], [?] and the anchors [^] and [$].  They are kept as syntax trees and
    matched with derivatives. *)

Module RegExp.

Inductive regex : Type :=
| Never : regex
| Eps : regex
| Class : (ascii -> bool) -> regex
| Cat : regex -> regex -> regex
| Alt : regex -> regex -> regex
| Star : regex -> regex.

(** A literal character. *)
Definition Chr (c : ascii) : regex := Class (Ascii.eqb c).

(** A run of literal characters. *)
Fixpoint Lit (s : string) : regex :=
  match s with
  | EmptyString => Eps
  | String c s' => Cat (Chr c) (Lit s')
  end.

(** [r?] and [r+] *)
Definition Opt (r : regex) : regex := Alt r Eps.
Definition Plus (r : regex) : regex := Cat r (Star r).

(** [.] and [\S] *)
Definition Dot : regex := Class (fun c => negb (JS.isLineTerminator c)).
Definition NonSpace : regex := Class (fun c => negb (JS.isWhiteSpace c)).

(** The characters with a meaning of their own in a pattern; a string
    without them, interpolated into a pattern, is a run of literals. *)
Definition isSyntaxCharacter (c : ascii) : bool :=
  existsb (Ascii.eqb c)
    (list_ascii_of_string "\^$.*+?()[]{}|").

Fixpoint isLiteral (s : string) : bool :=
  match s with
  | EmptyString => true
  | String c s' => negb (isSyntaxCharacter c) && isLiteral s'
  end.

Fixpoint nullable (r : regex) : bool :=
  match r with
  | Never => false
  | Eps => true
  | Class _ => false
  | Cat r1 r2 => nullable r1 && nullable r2
  | Alt r1 r2 => nullable r1 || nullable r2
  | Star _ => true
  end.

Fixpoint deriv (c : ascii) (r : regex) : regex :=
  match r with
  | Never => Never
  | Eps => Never
  | Class p => if p c then Eps else Never
  | Cat r1 r2 =>
      if nullable r1
      then Alt (Cat (deriv c r1) r2) (deriv c r2)
      else Cat (deriv c r1) r2
  | Alt r1 r2 => Alt (deriv c r1) (deriv c r2)
  | Star r1 => Cat (deriv c r1) (Star r1)
  end.

(** [s.match(/^r$/) !== null]: the whole of [s] is in the language. *)
Fixpoint test (r : regex) (s : string) : bool :=
  match s with
  | EmptyString => nullable r
  | String c s' => test (deriv c r) s'
  end.

(** [s.match(/^r/) !== null]: some prefix of [s] is in the language. *)
Fixpoint testPrefix (r : regex) (s : string) : bool :=
  nullable r ||
  match s with
  | EmptyString => false
  | String c s' => testPrefix (deriv c r) s'
  end.

(** The length of the longest prefix of [s] in the language. *)
Fixpoint longest (r : regex) (s : string) : option nat :=
  match s with
  | EmptyString => if nullable r then Some 0 else None
  | String c s' =>
      match longest (deriv c r) s' with
      | Some n => Some (S n)
      | None => if nullable r then Some 0 else None
      end
  end.

(** [s.replace(/^r/, '')] for a pattern whose greedy match is its longest
    one, as a starred literal is. *)
Definition removePrefix (r : regex) (s : string) : string :=
  match longest r s with
  | Some n => JS.substr n s
  | None => s
  end.

(** The language of a pattern. *)
Inductive matches : regex -> string -> Prop :=
| MEps : matches Eps EmptyString
| MClass : forall p c, p c = true -> matches (Class p) (String c EmptyString)
| MCat : forall r1 r2 s1 s2,
    matches r1 s1 -> matches r2 s2 -> matches (Cat r1 r2) (s1 ++ s2)
| MAltL : forall r1 r2 s, matches r1 s -> matches (Alt r1 r2) s
| MAltR : forall r1 r2 s, matches r2 s -> matches (Alt r1 r2) s
| MStarNil : forall r, matches (Star r) EmptyString
| MStarApp : forall r s1 s2,
    matches r s1 -> matches (Star r) s2 -> matches (Star r) (s1 ++ s2).

End RegExp.

Import RegExp.

(** ** The closures kept by the engine *)

(** A callback handed to [evaluate], [isFunction] or [waitSync]. *)
Inductive Callback : Type :=
| External : nat -> Callback
    (* a function of a caller outside these files, known by a number;
       calling it is recorded, it does not call back into the engine *)
| IfNotFunction : string -> Callback -> Callback.
    (* Expression.ts 19-25, capturing [expression] and [callback] *)

(** An element of [_inputHandler]. *)
Inductive InputHandler : Type :=
| WaitSyncHandler : regex -> Callback -> InputHandler
    (* Runtime.ts 148-154, capturing [syncRegex] and [callback] *)
| EvaluateHandler : regex -> string -> Callback -> InputHandler
    (* Runtime.ts 171-188, capturing [syncRegex], [value], [callback] *)
| IsFunctionHandler :
    regex -> regex -> option string -> Callback -> InputHandler.
    (* Expression.ts 42-54, capturing [isFuncRegex], [syncRegEx], [val]
       and [callback] *)

(** An element of [_eventHandler]: a predicate of a caller outside these
    files, known by a number. *)
Record EventHandler : Type := mkEventHandler {
  handlerId : nat;
  consumes : string -> bool
}.

(** What the engine does to the outside, in the order it does it.  A value
    that may be [undefined] is an [option]. *)
Inductive Effect : Type :=
| Spawned : string -> Effect                 (* spawn(name) *)
| StdinWrite : string -> Effect              (* _process.stdin.write(s) *)
| ConsoleLog : option string -> Effect       (* console.log(v) *)
| LoggerWarn : option string -> Effect       (* logger.warn(v) *)
| LoggerLog : option string -> Effect        (* logger.log(v) *)
| Emitted : string -> Effect                 (* this.emit(name) *)
| Synced : N -> Effect                       (* sync() returned this *)
| Called : nat -> option string -> Effect    (* an External callback called *)
| Asked : nat -> string -> Effect.           (* an event handler called *)

Definition LF : string := String (ascii_of_nat 10) EmptyString.
Definition DQUOTE : string := String (ascii_of_nat 34) EmptyString.

Module Runtime.

Record t : Type := mk {
  _commandNumber : N;
  _processName : string;
  _inputHandler : list InputHandler;
  _eventHandler : list EventHandler;
  _log : bool;
  _stdoutBuffer : option string;   (* undefined until first assigned *)
  _stdoutHandled : bool;           (* undefined counts as false *)
  effects : list Effect
}.

Definition setCommandNumber (n : N) (rt : t) : t :=
  mk n (_processName rt) (_inputHandler rt) (_eventHandler rt) (_log rt)
     (_stdoutBuffer rt) (_stdoutHandled rt) (effects rt).

Definition setInputHandler (q : list InputHandler) (rt : t) : t :=
  mk (_commandNumber rt) (_processName rt) q (_eventHandler rt) (_log rt)
     (_stdoutBuffer rt) (_stdoutHandled rt) (effects rt).

Definition setEventHandler (q : list EventHandler) (rt : t) : t :=
  mk (_commandNumber rt) (_processName rt) (_inputHandler rt) q (_log rt)
     (_stdoutBuffer rt) (_stdoutHandled rt) (effects rt).

Definition setStdoutBuffer (b : option string) (rt : t) : t :=
  mk (_commandNumber rt) (_processName rt) (_inputHandler rt)
     (_eventHandler rt) (_log rt) b (_stdoutHandled rt) (effects rt).

Definition setStdoutHandled (h : bool) (rt : t) : t :=
  mk (_commandNumber rt) (_processName rt) (_inputHandler rt)
     (_eventHandler rt) (_log rt) (_stdoutBuffer rt) h (effects rt).

Definition perform (e : Effect) (rt : t) : t :=
  mk (_commandNumber rt) (_processName rt) (_inputHandler rt)
     (_eventHandler rt) (_log rt) (_stdoutBuffer rt) (_stdoutHandled rt)
     (effects rt ++ [e]).

(** Runtime.ts 58-60 *)
Definition setLog (log : bool) (rt : t) : t :=
  mk (_commandNumber rt) (_processName rt) (_inputHandler rt)
     (_eventHandler rt) log (_stdoutBuffer rt) (_stdoutHandled rt)
     (effects rt).

(** Runtime.ts 64-66 *)
Definition getLog (rt : t) : bool := _log rt.

(** Runtime.ts 266-271 *)
Definition warn (str : option string) (rt : t) : t :=
  let rt := if _log rt then perform (ConsoleLog str) rt else rt in
  perform (LoggerWarn str) rt.

(** Runtime.ts 275-280 *)
Definition debug (str : option string) (rt : t) : t :=
  let rt := if _log rt then perform (ConsoleLog str) rt else rt in
  perform (LoggerLog str) rt.

(** Runtime.ts 94-96 and 100-102 *)
Definition addInputHandler (callback : InputHandler) (rt : t) : t :=
  setInputHandler (_inputHandler rt ++ [callback]) rt.

Definition addEventHandler (callback : EventHandler) (rt : t) : t :=
  setEventHandler (_eventHandler rt ++ [callback]) rt.

(** Runtime.ts 106-108 and 112-114 *)
Definition clearInputHandlers (rt : t) : t := setInputHandler [] rt.
Definition clearEventHandlers (rt : t) : t := setEventHandler [] rt.

(** Runtime.ts 118-122 *)
Definition send (cmd : string) (rt : t) : t :=
  let rt := setCommandNumber (_commandNumber rt + 1) rt in
  let rt :=
    debug (Some (_processName rt ++ ":" ++ JS.ofNumber (_commandNumber rt)
                 ++ "> " ++ cmd)) rt in
  perform (StdinWrite (cmd ++ LF)) rt.

(** Runtime.ts 51-54 *)
Definition addFolder (sourceFolder : string) (rt : t) : t :=
  send ("addpath('" ++ sourceFolder ++ "')") rt.

(** Runtime.ts 198-203: [start(program, stopOnEntry)], given what
    [dirname] and [functionFromPath] (of path and of Utils, outside these
    files) make of [program]; [stopOnEntry] is not read. *)
Definition start (folder function : string) (rt : t) : t :=
  send function (addFolder folder rt).

(** Runtime.ts 85-88 *)
Definition disconnect (rt : t) : t :=
  send "quit" (debug (Some "Runtime: quitting.") rt).

(** Runtime.ts 260-262: the argument of printf ends in a backslash and
    an n, which Octave prints as a line feed. *)
Definition echo (str : string) : string :=
  "printf(" ++ DQUOTE ++ str ++ "\n" ++ DQUOTE ++ ")".

(** Runtime.ts 13 and 15 *)
Definition PROMPT : string := "debug> ".
Definition PROMPT_REGEX : regex := Star (Lit PROMPT).

(** The text a handler reads from a line, [str.replace(PROMPT_REGEX,
    '').trim()] (Runtime.ts 176, Expression.ts 50). *)
Definition content (str : string) : string :=
  JS.trim (removePrefix PROMPT_REGEX str).

Section Constants.

(** [Constants.MODULE_NAME] of src/Constants.ts, kept as a parameter: a
    string that is a run of literals inside a pattern. *)
Variable MODULE_NAME : string.

(** Runtime.ts 16 *)
Definition SYNC : string := "vsc::" ++ MODULE_NAME.

(** Runtime.ts 17.  The pattern is written in a template literal, where
    backslash-s is the letter s: after the prompts come any number of
    letters s, not white space.  The pattern has no [$]. *)
Definition SYNC_REGEX : regex :=
  Cat (Star (Lit PROMPT)) (Cat (Star (Chr "s")) (Lit SYNC)).

(** Runtime.ts 126-128 *)
Definition syncString (id : N) : string := SYNC ++ ":" ++ JS.ofNumber id.

(** Runtime.ts 132-134: [^(?:debug> )*<syncString>$] *)
Definition syncRegEx (id : N) : regex :=
  Cat (Star (Lit PROMPT)) (Lit (syncString id)).

(** Runtime.ts 138-142.  The token returned is recorded as well, so that
    the tokens of a session can be read off its state. *)
Definition sync (rt : t) : N * t :=
  let id := _commandNumber rt in
  let rt := send (echo (syncString id)) rt in
  (id, perform (Synced id) rt).

(** Runtime.ts 146-156.  The closure is pushed before [sync] runs and its
    [syncRegex] is assigned after; no line is read in between, and [send]
    leaves the queue alone, so the closure is built with its pattern. *)
Definition waitSync (callback : Callback) (rt : t) : t :=
  let (id, rt) := sync rt in
  addInputHandler (WaitSyncHandler (syncRegEx id) callback) rt.

(** Runtime.ts 160-163 *)
Definition waitSend (cmd : string) (callback : Callback) (rt : t) : t :=
  waitSync callback (send cmd rt).

(** Runtime.ts 167-192, with the closure built as in [waitSync]. *)
Definition evaluate (expression : string) (callback : Callback) (rt : t)
  : t :=
  let (id, rt) := sync (send expression rt) in
  addInputHandler (EvaluateHandler (syncRegEx id) EmptyString callback) rt.

(** Calling a callback with one argument. *)
Fixpoint invoke (callback : Callback) (arg : option string) (rt : t) : t :=
  match callback with
  | External id => perform (Called id arg) rt
  | IfNotFunction expression callback' =>
      (* Expression.ts 19-25 *)
      match arg with
      | None => evaluate expression callback' rt
      | Some _ => invoke callback' arg rt
      end
  end.

(** Calling an input handler on a line: what it returns, the closure
    with its captured variables as the call leaves them, and the state. *)
Definition handle (h : InputHandler) (str : string) (rt : t)
  : bool * InputHandler * t :=
  match h with
  | WaitSyncHandler syncRegex callback =>
      if test syncRegex str
      then (true, h, invoke callback None rt)
      else (false, h, rt)
  | EvaluateHandler syncRegex value callback =>
      if test syncRegex str
      then (true, h, invoke callback (Some value) rt)
      else
        let str := content str in
        let value :=
          if negb (JS.length str =? 0)%nat
          then (if negb (JS.length value =? 0)%nat
                then value ++ LF else value) ++ str
          else value in
        (false, EvaluateHandler syncRegex value callback, rt)
  | IsFunctionHandler isFuncRegex syncRegEx val callback =>
      if test syncRegEx str
      then (true, h, invoke callback val rt)
      else
        let val := if test isFuncRegex str then Some (content str) else val in
        (false, IsFunctionHandler isFuncRegex syncRegEx val callback, rt)
  end.

(** [buffer += data] *)
Definition appendTo (buffer : option string) (data : string) : string :=
  match buffer with
  | None => "undefined" ++ data
  | Some b => b ++ data
  end.

(** Runtime.ts 216-224, the else branch of [onStdout]. *)
Definition unhandled (data : string) (rt : t) : t :=
  if _stdoutHandled rt || testPrefix SYNC_REGEX data
  then
    let rt := debug (_stdoutBuffer rt) rt in
    setStdoutHandled false (setStdoutBuffer (Some EmptyString) rt)
  else warn (Some data) rt.

(** Runtime.ts 209-225 *)
Definition onStdout (data : string) (rt : t) : t :=
  match _inputHandler rt with
  | [] => unhandled data rt
  | callback :: rest =>
      let '(result, callback, rt) :=
        handle callback data (setInputHandler rest rt) in
      if negb result
      then
        let rt := setInputHandler (callback :: _inputHandler rt) rt in
        let rt := setStdoutHandled true rt in
        setStdoutBuffer (Some (appendTo (_stdoutBuffer rt) data)) rt
      else unhandled data rt
  end.

(** [handlers.some(callback => callback(data))] *)
Fixpoint some (handlers : list EventHandler) (data : string) (rt : t)
  : bool * t :=
  match handlers with
  | [] => (false, rt)
  | h :: rest =>
      let rt := perform (Asked (handlerId h) data) rt in
      if consumes h data then (true, rt) else some rest data rt
  end.

(** Runtime.ts 229-234 *)
Definition onStderr (data : string) (rt : t) : t :=
  let (_, rt) := some (_eventHandler rt) data rt in
  warn (Some data) rt.

(** [`${code}`] for the code of the 'close' event: an integer (negative
    after a failed spawn), or null when a signal ended the child. *)
Definition ofCode (code : option Z) : string :=
  match code with
  | Some n => JS.ofInteger n
  | None => "null"
  end.

(** Runtime.ts 238-241 *)
Definition onExit (code : option Z) (rt : t) : t :=
  let rt :=
    debug (Some ("Runtime: " ++ _processName rt ++ " exited with code: "
                 ++ ofCode code)) rt in
  perform (Emitted "exit") rt.

(** Runtime.ts 245-256, given [_process.connected], [_process.killed]
    and whether a listener for 'error' is registered on the engine: with
    none, [this.emit('error')] throws.  The state the call leaves, and
    whether it threw. *)
Definition onError (msg : string) (connected killed listened : bool) (rt : t)
  : t * bool :=
  let msg :=
    if negb connected
    then msg ++ LF ++ "Could not connect to '" ++ _processName rt ++ "'."
    else msg in
  let msg :=
    if killed
    then msg ++ LF ++ "Process '" ++ _processName rt ++ "' was killed."
    else msg in
  let rt := debug (Some msg) rt in
  if listened then (perform (Emitted "error") rt, false) else (rt, true).

End Constants.

(** Runtime.ts 70-81 *)
Definition connect (rt : t) : t :=
  let rt :=
    debug (Some ("Runtime: connecting to '" ++ _processName rt ++ "'.")) rt in
  perform (Spawned (_processName rt)) rt.

(** Runtime.ts 34-47 *)
Definition new (processName sourceFolder : string) (log : bool) : t :=
  let rt := mk 0 processName [] [] false None false [] in
  let rt := setLog log rt in
  let rt := connect rt in
  let rt := clearInputHandlers rt in
  let rt := clearEventHandlers rt in
  addFolder sourceFolder rt.

End Runtime.

Module Expression.

Section Constants.

Variable MODULE_NAME : string.

(** Expression.ts 38:
    [^.*'<expression>' is a (?:\S+ )?function from the file .*$],
    for an [expression] that is a run of literals inside a pattern. *)
Definition isFuncRegex (expression : string) : regex :=
  Cat (Star Dot)
    (Cat (Lit ("'" ++ expression ++ "' is a "))
       (Cat (Opt (Cat (Plus NonSpace) (Chr " ")))
          (Cat (Lit "function from the file ") (Star Dot)))).

(** Expression.ts 32-58 for an [expression] free of pattern syntax
    characters, for which [new RegExp] at line 38 builds
    [isFuncRegex expression]; the closure is built as in
    [Runtime.waitSync].  For any other expression the method is
    [Compiled.isFunction] below. *)
Definition isFunction (expression : string) (callback : Callback)
  (runtime : Runtime.t) : Runtime.t :=
  let (id, runtime) :=
    Runtime.sync MODULE_NAME (Runtime.send ("which " ++ expression) runtime) in
  Runtime.addInputHandler
    (IsFunctionHandler (isFuncRegex expression)
       (Runtime.syncRegEx MODULE_NAME id) None callback)
    runtime.

(** Expression.ts 7-28: for any [expression] in the console, and outside
    it for an [expression] free of pattern syntax characters, as
    [isFunction]. *)
Definition evaluate (expression : string) (isConsole : bool)
  (callback : Callback) (runtime : Runtime.t) : Runtime.t :=
  if isConsole
  then
    let command := JS.substr 1 expression in
    Runtime.evaluate MODULE_NAME command callback runtime
  else
    isFunction expression (IfNotFunction expression callback) runtime.

End Constants.

End Expression.

(** [Expression.isFunction] and [Expression.evaluate] for any expression,
    given what [new RegExp] makes of the text of line 38: a pattern, or
    nothing when it throws a SyntaxError, which ends the call before
    anything is queued or sent.  For a run of literals the pattern is
    [Expression.isFuncRegex]. *)
Module Compiled.

Section Constants.

Variable MODULE_NAME : string.

Definition isFunction (compiled : option regex) (expression : string)
  (callback : Callback) (runtime : Runtime.t) : Runtime.t :=
  match compiled with
  | None => runtime
  | Some isFuncRegex =>
      let (id, runtime) :=
        Runtime.sync MODULE_NAME
          (Runtime.send ("which " ++ expression) runtime) in
      Runtime.addInputHandler
        (IsFunctionHandler isFuncRegex (Runtime.syncRegEx MODULE_NAME id) None
           callback)
        runtime
  end.

Definition evaluate (compiled : option regex) (expression : string)
  (isConsole : bool) (callback : Callback) (runtime : Runtime.t)
  : Runtime.t :=
  if isConsole
  then
    let command := JS.substr 1 expression in
    Runtime.evaluate MODULE_NAME command callback runtime
  else
    isFunction compiled expression (IfNotFunction expression callback)
      runtime.

End Constants.

End Compiled.

(** ** Sessions: the engine driven by its callers and by the child *)

Module Session.

(** One thing that happens to a session: a call of a method of the two
    files, or an event of the child process.  A call that builds the
    pattern of [isFunction] comes with what [new RegExp] makes of it; an
    error comes with [connected], [killed] and whether a listener is
    registered.  The callbacks are those of [Callback], which do not call
    the engine themselves, and the closure handed to [addInputHandler] is
    one of the three shapes the engine builds. *)
Inductive Op : Type :=
| CallSend : string -> Op
| CallSync : Op
| CallWaitSync : Callback -> Op
| CallWaitSend : string -> Callback -> Op
| CallEvaluate : string -> Callback -> Op
| CallIsFunction : string -> option regex -> Callback -> Op
| CallExpressionEvaluate : string -> bool -> option regex -> Callback -> Op
| CallAddFolder : string -> Op
| CallStart : string -> string -> Op
| CallAddInputHandler : InputHandler -> Op
| CallAddEventHandler : EventHandler -> Op
| CallClearInputHandlers : Op
| CallClearEventHandlers : Op
| CallSetLog : bool -> Op
| CallDisconnect : Op
| StdoutLine : string -> Op
| StderrLine : string -> Op
| Exit : option Z -> Op
| Error : string -> bool -> bool -> bool -> Op.

(** One exchange with the child: an [evaluate] call, and what the child
    answers on its primary stream, the lines of output and then the marker
    line behind some prompts. *)
Record Exchange : Type := mkExchange {
  expression : string;
  callbackId : nat;
  output : list string;
  prompts : nat
}.

(** The tokens returned, the calls of External callbacks, the writes to
    the child, the emitted signals, the warnings and the calls of event
    handlers among some effects, each in order. *)
Definition tokens (es : list Effect) : list N :=
  flat_map (fun e => match e with Synced id => [id] | _ => [] end) es.

Definition calls (es : list Effect) : list (nat * option string) :=
  flat_map (fun e => match e with Called id v => [(id, v)] | _ => [] end) es.

Definition writes (es : list Effect) : list string :=
  flat_map (fun e => match e with StdinWrite s => [s] | _ => [] end) es.

Definition signals (es : list Effect) : list string :=
  flat_map (fun e => match e with Emitted s => [s] | _ => [] end) es.

Definition warnings (es : list Effect) : list (option string) :=
  flat_map (fun e => match e with LoggerWarn v => [v] | _ => [] end) es.

Definition asked (es : list Effect) : list (nat * string) :=
  flat_map (fun e => match e with Asked id s => [(id, s)] | _ => [] end) es.

(** A line read from the primary stream. *)
Definition isStdoutLine (op : Op) : bool :=
  match op with
  | StdoutLine _ => true
  | _ => false
  end.

(** The 'close' event of the child. *)
Definition isExit (op : Op) : bool :=
  match op with
  | Exit _ => true
  | _ => false
  end.

(** The 'exit' signals among some signals. *)
Definition exits (names : list string) : list string :=
  filter (String.eqb "exit") names.

(** Something that happens to a session and leaves the counter where it
    is or raises it. *)
Definition keepsCounter (f : Runtime.t -> Runtime.t) : Prop :=
  forall rt, (Runtime._commandNumber rt <= Runtime._commandNumber (f rt))%N.

(** The strings of a list that are not empty, joined by line feeds. *)
Definition joined (lines : list string) : string :=
  String.concat LF (filter (fun s => negb (JS.length s =? 0)%nat) lines).

(** The handlers of a list up to the first that consumes the line, that
    one included. *)
Fixpoint upToFirst (handlers : list EventHandler) (data : string)
  : list EventHandler :=
  match handlers with
  | [] => []
  | h :: rest => h :: (if consumes h data then [] else upToFirst rest data)
  end.

(** The last line of a list that a pattern accepts whole. *)
Definition lastMatch (r : regex) (lines : list string) : option string :=
  find (test r) (rev lines).

(** The first line of a list that a pattern accepts whole. *)
Definition firstMatch (r : regex) (lines : list string) : option string :=
  find (test r) lines.

Section Constants.

Variable MODULE_NAME : string.

(** The state after a step.  When [onError] throws, the state is the one
    the throw leaves. *)
Definition step (op : Op) (rt : Runtime.t) : Runtime.t :=
  match op with
  | CallSend cmd => Runtime.send cmd rt
  | CallSync => snd (Runtime.sync MODULE_NAME rt)
  | CallWaitSync callback => Runtime.waitSync MODULE_NAME callback rt
  | CallWaitSend cmd callback => Runtime.waitSend MODULE_NAME cmd callback rt
  | CallEvaluate e callback => Runtime.evaluate MODULE_NAME e callback rt
  | CallIsFunction e compiled callback =>
      Compiled.isFunction MODULE_NAME compiled e callback rt
  | CallExpressionEvaluate e isConsole compiled callback =>
      Compiled.evaluate MODULE_NAME compiled e isConsole callback rt
  | CallAddFolder folder => Runtime.addFolder folder rt
  | CallStart folder function => Runtime.start folder function rt
  | CallAddInputHandler h => Runtime.addInputHandler h rt
  | CallAddEventHandler h => Runtime.addEventHandler h rt
  | CallClearInputHandlers => Runtime.clearInputHandlers rt
  | CallClearEventHandlers => Runtime.clearEventHandlers rt
  | CallSetLog log => Runtime.setLog log rt
  | CallDisconnect => Runtime.disconnect rt
  | StdoutLine data => Runtime.onStdout MODULE_NAME data rt
  | StderrLine data => Runtime.onStderr data rt
  | Exit code => Runtime.onExit code rt
  | Error msg connected killed listened =>
      fst (Runtime.onError msg connected killed listened rt)
  end.

(** The state after a run of steps. *)
Definition run (ops : list Op) (rt : Runtime.t) : Runtime.t :=
  fold_left (fun rt op => step op rt) ops rt.

(** The tokens that calls of [sync] return, each call made after one of
    the given things has happened to the session. *)
Fixpoint returned (between : list (Runtime.t -> Runtime.t)) (rt : Runtime.t)
  : list N :=
  match between with
  | [] => []
  | f :: rest =>
      fst (Runtime.sync MODULE_NAME (f rt))
      :: returned rest (snd (Runtime.sync MODULE_NAME (f rt)))
  end.

(** Lines read from the primary stream, one after the other. *)
Definition deliver (lines : list string) (rt : Runtime.t) : Runtime.t :=
  fold_left (fun rt data => Runtime.onStdout MODULE_NAME data rt) lines rt.

(** [evaluate] called once per exchange, none waiting for a callback. *)
Fixpoint evaluateAll (xs : list Exchange) (rt : Runtime.t) : Runtime.t :=
  match xs with
  | [] => rt
  | x :: xs' =>
      evaluateAll xs'
        (Runtime.evaluate MODULE_NAME (expression x)
           (External (callbackId x)) rt)
  end.

(** The token of the first of some [evaluate] calls made from a state:
    the counter once the expression is sent. *)
Definition firstToken (rt : Runtime.t) : N := Runtime._commandNumber rt + 1.

(** The marker line of a token behind [k] prompts. *)
Definition markerLine (k : nat) (id : N) : string :=
  JS.repeat Runtime.PROMPT k ++ Runtime.syncString MODULE_NAME id.

(** What the child prints for the exchanges, the first having token
    [id]: every [evaluate] sends two commands, so the tokens go up by
    two. *)
Fixpoint responses (id : N) (xs : list Exchange) : list string :=
  match xs with
  | [] => []
  | x :: xs' =>
      output x ++ markerLine (prompts x) id :: responses (id + 2) xs'
  end.

(** The handlers [evaluateAll] leaves in the queue, and the calls their
    callbacks are owed: each exchange's own output, read as content. *)
Fixpoint pending (id : N) (xs : list Exchange) : list InputHandler :=
  match xs with
  | [] => []
  | x :: xs' =>
      EvaluateHandler (Runtime.syncRegEx MODULE_NAME id) EmptyString
        (External (callbackId x))
      :: pending (id + 2) xs'
  end.

Definition results (xs : list Exchange) : list (nat * option string) :=
  map (fun x => (callbackId x, Some (joined (map Runtime.content (output x)))))
    xs.

(** No line of an exchange's output is the marker line of its own
    token. *)
Fixpoint delimited (id : N) (xs : list Exchange) : bool :=
  match xs with
  | [] => true
  | x :: xs' =>
      forallb (fun l => negb (test (Runtime.syncRegEx MODULE_NAME id) l))
        (output x)
      && delimited (id + 2) xs'
  end.

End Constants.

End Session.

(** ** A session for the examples *)

Module Sample.

(** A value for [Constants.MODULE_NAME]; any run of literals would do. *)
Definition MODULE_NAME : string := "OctaveDebugger".

(** A session just constructed: [addpath] is sent, nothing is read yet,
    the counter is 1. *)
Definition fresh : Runtime.t := Runtime.new "octave-cli" "/src" false.

(** The same with one event handler that consumes every line. *)
Definition listening : Runtime.t :=
  Runtime.addEventHandler (mkEventHandler 0 (fun _ => true)) fresh.

(** The same with three event handlers, registered in the order of their
    numbers: the first consumes no line, the others lines of errors. *)
Definition isError (str : string) : bool := String.prefix "error: " str.

Definition watched : Runtime.t :=
  Runtime.addEventHandler (mkEventHandler 3 isError)
    (Runtime.addEventHandler (mkEventHandler 2 isError)
       (Runtime.addEventHandler (mkEventHandler 1 (fun _ => false)) fresh)).

End Sample.

(** ** Requests of any kind, and what is logged *)

Module Requests.

(** A request made of the engine, with the number of the caller's
    callback: [waitSync], [waitSend], [Runtime.evaluate] or
    [Expression.isFunction]. *)
Inductive Request : Type :=
| WaitSync : nat -> Request
| WaitSend : string -> nat -> Request
| Evaluate : string -> nat -> Request
| IsFunction : string -> nat -> Request.

(** A request and what the child answers on its primary stream: the lines
    of output, then the marker line behind some prompts. *)
Record Exchange : Type := mkExchange {
  request : Request;
  output : list string;
  prompts : nat
}.

(** The command a request sends before it calls [sync], if any. *)
Definition command (r : Request) : option string :=
  match r with
  | WaitSync _ => None
  | WaitSend cmd _ => Some cmd
  | Evaluate e _ => Some e
  | IsFunction name _ => Some ("which " ++ name)
  end.

(** The name interpolated into a pattern, if any, is a run of literals. *)
Definition literal (r : Request) : bool :=
  match r with
  | IsFunction name _ => isLiteral name
  | _ => true
  end.

Section Constants.

Variable MODULE_NAME : string.

Definition issue (r : Request) (rt : Runtime.t) : Runtime.t :=
  match r with
  | WaitSync id => Runtime.waitSync MODULE_NAME (External id) rt
  | WaitSend cmd id => Runtime.waitSend MODULE_NAME cmd (External id) rt
  | Evaluate e id => Runtime.evaluate MODULE_NAME e (External id) rt
  | IsFunction name id =>
      Expression.isFunction MODULE_NAME name (External id) rt
  end.

(** The token of a request made when the counter is [c], and the counter
    once the request is made. *)
Definition token (r : Request) (c : N) : N :=
  match command r with
  | None => c
  | Some _ => c + 1
  end.

Definition next (r : Request) (c : N) : N := token r c + 1.

(** The closure a request made at counter [c] puts in the queue. *)
Definition handler (r : Request) (c : N) : InputHandler :=
  match r with
  | WaitSync id | WaitSend _ id =>
      WaitSyncHandler (Runtime.syncRegEx MODULE_NAME (token r c)) (External id)
  | Evaluate _ id =>
      EvaluateHandler (Runtime.syncRegEx MODULE_NAME (token r c)) EmptyString
        (External id)
  | IsFunction name id =>
      IsFunctionHandler (Expression.isFuncRegex name)
        (Runtime.syncRegEx MODULE_NAME (token r c)) None (External id)
  end.

(** What a request made at counter [c] writes to the child. *)
Definition written (r : Request) (c : N) : list string :=
  match command r with
  | None => []
  | Some cmd => [cmd ++ LF]
  end
  ++ [Runtime.echo (Runtime.syncString MODULE_NAME (token r c)) ++ LF].

(** The call an exchange owes to the request's callback. *)
Definition outcome (x : Exchange) : nat * option string :=
  match request x with
  | WaitSync id | WaitSend _ id => (id, None)
  | Evaluate _ id =>
      (id, Some (Session.joined (map Runtime.content (output x))))
  | IsFunction name id =>
      (id, option_map Runtime.content
             (Session.lastMatch (Expression.isFuncRegex name) (output x)))
  end.

(** The requests of some exchanges made one after the other, none waiting
    for a callback. *)
Fixpoint issueAll (xs : list Exchange) (rt : Runtime.t) : Runtime.t :=
  match xs with
  | [] => rt
  | x :: xs' => issueAll xs' (issue (request x) rt)
  end.

Fixpoint counterAfter (c : N) (xs : list Exchange) : N :=
  match xs with
  | [] => c
  | x :: xs' => counterAfter (next (request x) c) xs'
  end.

Fixpoint pending (c : N) (xs : list Exchange) : list InputHandler :=
  match xs with
  | [] => []
  | x :: xs' => handler (request x) c :: pending (next (request x) c) xs'
  end.

Fixpoint writtenAll (c : N) (xs : list Exchange) : list string :=
  match xs with
  | [] => []
  | x :: xs' => written (request x) c ++ writtenAll (next (request x) c) xs'
  end.

(** What the child prints for the exchanges, the first request made at
    counter [c]. *)
Fixpoint responses (c : N) (xs : list Exchange) : list string :=
  match xs with
  | [] => []
  | x :: xs' =>
      output x
      ++ Session.markerLine MODULE_NAME (prompts x) (token (request x) c)
         :: responses (next (request x) c) xs'
  end.

(** No line of an exchange's output is the marker line of its own
    token. *)
Fixpoint delimited (c : N) (xs : list Exchange) : bool :=
  match xs with
  | [] => true
  | x :: xs' =>
      forallb
        (fun l =>
           negb (test (Runtime.syncRegEx MODULE_NAME (token (request x) c)) l))
        (output x)
      && delimited (next (request x) c) xs'
  end.

End Constants.

End Requests.

Module Chars.

(** Every character of a string passes a test. *)
Fixpoint every (p : ascii -> bool) (s : string) : bool :=
  match s with
  | EmptyString => true
  | String c s' => p c && every p s'
  end.

(** The optional word of the pattern of [isFunction]: nothing, or
    characters that are not white space and then one blank. *)
Definition qualifier (s : string) : Prop :=
  s = EmptyString \/
  exists w, w <> EmptyString /\
            every (fun c => negb (JS.isWhiteSpace c)) w = true /\
            s = (w ++ " ")%string.

Definition oneLine (s : string) : bool :=
  every (fun c => negb (JS.isLineTerminator c)) s.

End Chars.

Module Handler.

(** The pattern a closure waits for, the callback it calls when a line
    matches it, and what it calls it with. *)
Definition marker (h : InputHandler) : regex :=
  match h with
  | WaitSyncHandler syncRegex _ => syncRegex
  | EvaluateHandler syncRegex _ _ => syncRegex
  | IsFunctionHandler _ syncRegEx _ _ => syncRegEx
  end.

Definition callback (h : InputHandler) : Callback :=
  match h with
  | WaitSyncHandler _ callback => callback
  | EvaluateHandler _ _ callback => callback
  | IsFunctionHandler _ _ _ callback => callback
  end.

Definition argument (h : InputHandler) : option string :=
  match h with
  | WaitSyncHandler _ _ => None
  | EvaluateHandler _ value _ => Some value
  | IsFunctionHandler _ _ val _ => val
  end.

End Handler.

Module Logs.

(** The values passed to [logger.log] and to [console.log] among some
    effects, each in order. *)
Definition logged (es : list Effect) : list (option string) :=
  flat_map (fun e => match e with LoggerLog v => [v] | _ => [] end) es.

Definition printed (es : list Effect) : list (option string) :=
  flat_map (fun e => match e with ConsoleLog v => [v] | _ => [] end) es.

(** [_stdoutBuffer] once some lines are added to it. *)
Definition glued (buffer : option string) (lines : list string)
  : option string :=
  fold_left (fun b l => Some (Runtime.appendTo b l)) lines buffer.

(** An effect that is neither a write to the child nor a line on the
    console. *)
Definition plain (e : Effect) : bool :=
  match e with
  | StdinWrite _ | ConsoleLog _ => false
  | _ => true
  end.


(** A step that does not switch the console log on. *)
Definition keepsLogOff (op : Session.Op) : bool :=
  match op with
  | Session.CallSetLog log => negb log
  | _ => true
  end.

(** The log is off and nothing was passed to [console.log]. *)
Definition quiet (rt : Runtime.t) : Prop :=
  Runtime._log rt = false /\ printed (Runtime.effects rt) = [].

End Logs.

(** * Facts *)

(** ** Strings *)

Lemma append_nil_r (s : string) : s ++ "" = s.
Proof. induction s; simpl; congruence. Qed.

Lemma append_assoc (a b c : string) : (a ++ b) ++ c = a ++ (b ++ c).
Proof. induction a; simpl; congruence. Qed.

Lemma append_length (a b : string) :
  String.length (a ++ b) = String.length a + String.length b.
Proof. induction a; simpl; congruence. Qed.

Lemma append_inv_head (a b c : string) : a ++ b = a ++ c -> b = c.
Proof. induction a; simpl; intros H; [assumption | injection H; auto]. Qed.

Lemma append_eq_nil (a b : string) : a ++ b = "" -> a = "" /\ b = "".
Proof. destruct a; simpl; [auto | discriminate]. Qed.

Lemma append_inv_length (a b c d : string) :
  a ++ b = c ++ d -> String.length a = String.length c -> a = c /\ b = d.
Proof.
  revert c; induction a as [|x a IH]; intros [|y c]; simpl; try discriminate.
  - auto.
  - intros H L. injection H as -> H. injection L as L.
    destruct (IH _ H L) as [-> ->]. auto.
Qed.

Lemma substr_append (a b : string) : JS.substr (String.length a) (a ++ b) = b.
Proof. induction a; simpl; [destruct b|]; auto. Qed.

Lemma substr_1_neq (c : ascii) (s : string) :
  JS.substr 1 (String c s) <> String c s.
Proof.
  simpl. intros H. apply (f_equal String.length) in H. simpl in H.
  destruct s; simpl in H; lia.
Qed.

Lemma repeat_S_r (p : string) (n : nat) :
  JS.repeat p (S n) = JS.repeat p n ++ p.
Proof.
  induction n; simpl in *.
  - now rewrite append_nil_r.
  - now rewrite IHn at 1; rewrite append_assoc.
Qed.

(** ** Patterns: the matcher decides the language *)

Import RegExp.

Lemma matches_nil_nullable (r : regex) (s : string) :
  matches r s -> s = "" -> nullable r = true.
Proof.
  induction 1; intros E; simpl; auto; try discriminate.
  - apply append_eq_nil in E as [E1 E2]. now rewrite IHmatches1, IHmatches2.
  - now rewrite IHmatches.
  - rewrite IHmatches; auto using orb_true_r.
Qed.

Lemma nullable_matches_nil (r : regex) : nullable r = true -> matches r "".
Proof.
  induction r; simpl; intros H; try discriminate.
  - constructor.
  - apply andb_true_iff in H as [H1 H2].
    change "" with ("" ++ ""). constructor; auto.
  - apply orb_true_iff in H as [H|H]; [apply MAltL | apply MAltR]; auto.
  - constructor.
Qed.

Lemma matches_deriv (r : regex) (x : string) :
  matches r x -> forall c s, x = String c s -> matches (deriv c r) s.
Proof.
  induction 1 as [ | p a Hp | r1 r2 s1 s2 H1 IH1 H2 IH2 | r1 r2 s H IH
                 | r1 r2 s H IH | r | r s1 s2 H1 IH1 H2 IH2 ];
    intros c t E; simpl.
  - discriminate.
  - injection E as -> <-. rewrite Hp. constructor.
  - destruct s1 as [|a s1]; simpl in E.
    + rewrite (matches_nil_nullable _ _ H1 eq_refl). apply MAltR; auto.
    + injection E as -> <-.
      destruct (nullable r1); [apply MAltL|]; constructor; auto.
  - apply MAltL; auto.
  - apply MAltR; auto.
  - discriminate.
  - destruct s1 as [|a s1]; simpl in E.
    + apply (IH2 _ _ E).
    + injection E as -> <-. constructor; auto.
Qed.

Lemma deriv_matches (r : regex) :
  forall c s, matches (deriv c r) s -> matches r (String c s).
Proof.
  induction r as [ | | p | r1 IH1 r2 IH2 | r1 IH1 r2 IH2 | r IH ];
    intros c s H; simpl in H.
  - inversion H.
  - inversion H.
  - destruct (p c) eqn:Hp; inversion H; subst. now constructor.
  - assert (L : forall s, matches (Cat (deriv c r1) r2) s ->
                          matches (Cat r1 r2) (String c s)).
    { intros s0 H0. inversion H0; subst.
      change (String c (s1 ++ s2)) with (String c s1 ++ s2).
      constructor; auto. }
    destruct (nullable r1) eqn:N; [|auto].
    inversion H; subst; [auto|].
    change (String c s) with ("" ++ String c s).
    constructor; auto using nullable_matches_nil.
  - inversion H; subst; [apply MAltL | apply MAltR]; auto.
  - inversion H; subst.
    change (String c (s1 ++ s2)) with (String c s1 ++ s2).
    constructor; auto.
Qed.

Lemma test_matches (s : string) :
  forall r, test r s = true <-> matches r s.
Proof.
  induction s as [|c s IH]; intros r; simpl.
  - split; [apply nullable_matches_nil | intros H; apply (matches_nil_nullable _ _ H eq_refl)].
  - rewrite IH. split; [apply deriv_matches | intros H; apply (matches_deriv _ _ H _ _ eq_refl)].
Qed.

Lemma testPrefix_matches (s : string) :
  forall r, testPrefix r s = true <-> exists a b, s = a ++ b /\ matches r a.
Proof.
  induction s as [|c s IH]; intros r; simpl.
  - rewrite orb_false_r. split.
    + intros H. exists "", "". auto using nullable_matches_nil.
    + intros (a & b & E & H). symmetry in E.
      apply append_eq_nil in E as [-> _]. apply (matches_nil_nullable _ _ H eq_refl).
  - rewrite orb_true_iff, IH. split.
    + intros [H | (a & b & -> & H)].
      * exists "", (String c s). auto using nullable_matches_nil.
      * exists (String c a), b. auto using deriv_matches.
    + intros ([|x a] & b & E & H); simpl in E.
      * left. apply (matches_nil_nullable _ _ H eq_refl).
      * injection E as <- ->. right. exists a, b.
        split; [reflexivity | apply (matches_deriv _ _ H _ _ eq_refl)].
Qed.

Lemma longest_sound (s : string) :
  forall r n, longest r s = Some n ->
  exists a b, s = a ++ b /\ String.length a = n /\ matches r a.
Proof.
  induction s as [|c s IH]; intros r n; simpl.
  - destruct (nullable r) eqn:N; intros [= <-].
    exists "", "". auto using nullable_matches_nil.
  - destruct (longest (deriv c r) s) as [m|] eqn:L.
    + intros [= <-]. destruct (IH _ _ L) as (a & b & -> & <- & H).
      exists (String c a), b. auto using deriv_matches.
    + destruct (nullable r) eqn:N; intros [= <-].
      exists "", (String c s). auto using nullable_matches_nil.
Qed.

Lemma longest_maximal (s : string) :
  forall r a b, s = a ++ b -> matches r a ->
  exists n, longest r s = Some n /\ String.length a <= n.
Proof.
  induction s as [|c s IH]; intros r a b E H; simpl.
  - symmetry in E. apply append_eq_nil in E as [-> _].
    rewrite (matches_nil_nullable _ _ H eq_refl). eauto.
  - destruct a as [|x a]; simpl in E.
    + rewrite (matches_nil_nullable _ _ H eq_refl).
      destruct (longest (deriv c r) s); simpl; eexists; split; eauto; lia.
    + injection E as <- ->.
      destruct (IH (deriv c r) a b eq_refl (matches_deriv _ _ H _ _ eq_refl))
        as (n & -> & Hn).
      exists (S n). simpl. split; [reflexivity | lia].
Qed.

(** Removing the longest matching prefix, when that prefix is known. *)
Lemma removePrefix_longest (r : regex) (a b : string) :
  matches r a ->
  (forall a' b', a ++ b = a' ++ b' -> matches r a' ->
                 String.length a' <= String.length a) ->
  removePrefix r (a ++ b) = b.
Proof.
  intros H Hmax. unfold removePrefix.
  destruct (longest_maximal (a ++ b) r a b eq_refl H) as (n & L & Hn).
  rewrite L. destruct (longest_sound _ _ _ L) as (a' & b' & E & <- & H').
  specialize (Hmax _ _ E H').
  assert (EL : String.length a = String.length a') by lia.
  rewrite <- EL. apply substr_append.
Qed.

Lemma matches_Lit (p x : string) : matches (Lit p) x <-> x = p.
Proof.
  revert x; induction p as [|c p IH]; intros x; simpl.
  - split; [intros H; now inversion H | intros ->; constructor].
  - split.
    + intros H. inversion H as [ | | r1 r2 s1 s2 H1 H2 | | | | ]; subst.
      apply IH in H2 as ->. inversion H1 as [ | q a Hq | | | | | ]; subst.
      apply Ascii.eqb_eq in Hq as ->. reflexivity.
    + intros ->. change (String c p) with (String c "" ++ p).
      constructor; [constructor; apply Ascii.eqb_refl | now apply IH].
Qed.

Lemma matches_Cat_inv (r1 r2 : regex) (s : string) :
  matches (Cat r1 r2) s ->
  exists s1 s2, s = s1 ++ s2 /\ matches r1 s1 /\ matches r2 s2.
Proof. intros H. inversion H; subst. eauto. Qed.

Lemma matches_Star_repeat (r : regex) (p : string) (n : nat) :
  matches r p -> matches (Star r) (JS.repeat p n).
Proof. intros H. induction n; simpl; constructor; auto. Qed.

Lemma matches_Star_Lit (p x : string) :
  matches (Star (Lit p)) x <-> exists n, x = JS.repeat p n.
Proof.
  split.
  - intros H. remember (Star (Lit p)) as r eqn:E.
    induction H; try discriminate.
    + now exists 0.
    + injection E as ->. apply matches_Lit in H as ->.
      destruct (IHmatches2 eq_refl) as (n & ->). now exists (S n).
  - intros (n & ->). apply matches_Star_repeat, matches_Lit; reflexivity.
Qed.

(** ** Repetitions of a prefix *)

Section Repetitions.

Variable p : string.
Hypothesis p_not_empty : p <> "".

Local Abbreviation startsWith := (JS.startsWith p).

Lemma repeat_add (n m : nat) :
  JS.repeat p (n + m) = JS.repeat p n ++ JS.repeat p m.
Proof. induction n; simpl; [|rewrite IHn, append_assoc]; reflexivity. Qed.

Lemma repeat_length (n : nat) :
  String.length (JS.repeat p n) = n * String.length p.
Proof. induction n; simpl; [|rewrite append_length, IHn]; reflexivity. Qed.

Lemma p_length : 0 < String.length p.
Proof. destruct p; [congruence | simpl; lia]. Qed.

(** Two ways of cutting a string after some repetitions: the one that
    leaves a rest without the prefix has the most repetitions. *)
Lemma repeat_most (k : nat) :
  forall n b t, JS.repeat p k ++ b = JS.repeat p n ++ t ->
                ~ startsWith t -> k <= n.
Proof.
  induction k as [|k IH]; intros n b t E Ht; [lia|].
  destruct n as [|n]; simpl in E.
  - exfalso. apply Ht. exists (JS.repeat p k ++ b).
    now rewrite <- E, append_assoc.
  - rewrite !append_assoc in E. apply append_inv_head in E.
    apply IH in E; auto. lia.
Qed.

Lemma removePrefix_repeat (n : nat) (t : string) :
  ~ startsWith t -> removePrefix (Star (Lit p)) (JS.repeat p n ++ t) = t.
Proof.
  intros Ht. apply removePrefix_longest.
  - apply matches_Star_Lit. eauto.
  - intros a' b' E H. apply matches_Star_Lit in H as (k & ->).
    symmetry in E. apply repeat_most in E; auto.
    rewrite !repeat_length. apply Nat.mul_le_mono_r, E.
Qed.

(** Every string is some repetitions of the prefix and a rest without
    it. *)
Lemma repeat_split (s : string) :
  exists n t, s = JS.repeat p n ++ t /\ ~ startsWith t.
Proof.
  destruct (longest_maximal s (Star (Lit p)) "" s eq_refl (MStarNil _))
    as (m & L & _).
  destruct (longest_sound _ _ _ L) as (a & b & -> & <- & H).
  apply matches_Star_Lit in H as (n & ->).
  exists n, b. split; [reflexivity|]. intros (z & ->).
  assert (M : matches (Star (Lit p)) (JS.repeat p (S n))).
  { apply matches_Star_Lit. eauto. }
  destruct (longest_maximal (JS.repeat p n ++ p ++ z) (Star (Lit p))
              (JS.repeat p (S n)) z) as (m & L' & Hm); auto.
  { now rewrite repeat_S_r, append_assoc. }
  rewrite L in L'. injection L' as <-.
  rewrite !repeat_length in Hm. pose proof p_length. simpl in Hm. lia.
Qed.

Lemma removePrefix_repeat_more (n : nat) (s : string) :
  removePrefix (Star (Lit p)) (JS.repeat p n ++ s)
  = removePrefix (Star (Lit p)) s.
Proof.
  destruct (repeat_split s) as (j & t & -> & Ht).
  rewrite <- append_assoc, <- repeat_add.
  now rewrite !removePrefix_repeat.
Qed.

Lemma removePrefix_without (s : string) :
  ~ startsWith s -> removePrefix (Star (Lit p)) s = s.
Proof. intros H. apply (removePrefix_repeat 0 _ H). Qed.

End Repetitions.

(** ** Prompts and markers *)

Lemma ofNumber_inj (n m : N) : JS.ofNumber n = JS.ofNumber m -> n = m.
Proof.
  unfold JS.ofNumber. intros E.
  assert (NN : forall k, N.to_uint k <> Decimal.Nil).
  { intros [|q]; [discriminate | apply DecimalPos.Unsigned.to_uint_nonnil]. }
  apply (f_equal NilZero.uint_of_string) in E.
  rewrite !NilZero.usu in E by apply NN.
  injection E as E. now apply DecimalN.Unsigned.to_uint_inj.
Qed.

Lemma PROMPT_not_empty : Runtime.PROMPT <> "".
Proof. discriminate. Qed.

Lemma content_prompts (n : nat) (s : string) :
  Runtime.content (JS.repeat Runtime.PROMPT n ++ s) = Runtime.content s.
Proof.
  unfold Runtime.content, Runtime.PROMPT_REGEX.
  now rewrite (removePrefix_repeat_more _ PROMPT_not_empty).
Qed.

Section Markers.

Variable MODULE_NAME : string.

Local Abbreviation syncString := (Runtime.syncString MODULE_NAME).
Local Abbreviation syncRegEx := (Runtime.syncRegEx MODULE_NAME).
Local Abbreviation markerLine := (Session.markerLine MODULE_NAME).

Lemma syncString_not_prompt (id : N) :
  ~ JS.startsWith Runtime.PROMPT (syncString id).
Proof. intros (z & E). discriminate E. Qed.

Lemma syncString_inj (id id' : N) : syncString id = syncString id' -> id = id'.
Proof.
  unfold Runtime.syncString. intros E.
  apply append_inv_head in E. injection E as E. now apply ofNumber_inj.
Qed.

(** What the pattern of a token accepts: its marker behind prompts. *)
Lemma syncRegEx_test (id : N) (line : string) :
  test (syncRegEx id) line = true <-> exists k, line = markerLine k id.
Proof.
  rewrite test_matches. unfold Runtime.syncRegEx, Session.markerLine. split.
  - intros H. apply matches_Cat_inv in H as (s1 & s2 & -> & H1 & H2).
    apply matches_Star_Lit in H1 as (k & ->). apply matches_Lit in H2 as ->.
    now exists k.
  - intros (k & ->). constructor.
    + apply matches_Star_Lit. now exists k.
    + now apply matches_Lit.
Qed.

Lemma markerLine_inj (k k' : nat) (id id' : N) :
  markerLine k id = markerLine k' id' -> k = k' /\ id = id'.
Proof.
  unfold Session.markerLine. intros E.
  assert (L : k <= k').
  { apply (repeat_most _ _ _ _ _ E), syncString_not_prompt. }
  assert (L' : k' <= k).
  { symmetry in E.
    apply (repeat_most _ _ _ _ _ E), syncString_not_prompt. }
  assert (k = k') as <- by lia. split; [reflexivity|].
  apply append_inv_head in E. now apply syncString_inj.
Qed.

End Markers.

(** ** Joining the lines a handler keeps *)

Lemma concat_snoc (sep c : string) (l : list string) :
  l <> [] -> String.concat sep (l ++ [c]) = String.concat sep l ++ sep ++ c.
Proof.
  induction l as [|x [|y l] IH]; intros H; [congruence | reflexivity |].
  change (String.concat sep ((x :: y :: l) ++ [c]))
    with (x ++ sep ++ String.concat sep ((y :: l) ++ [c])).
  rewrite IH by discriminate.
  change (String.concat sep (x :: y :: l))
    with (x ++ sep ++ String.concat sep (y :: l)).
  now rewrite !append_assoc.
Qed.

Lemma concat_length_0 (sep : string) (l : list string) :
  Forall (fun s => (JS.length s =? 0)%nat = false) l ->
  (JS.length (String.concat sep l) =? 0)%nat = true -> l = [].
Proof.
  intros H E. destruct l as [|x l]; [reflexivity|]. exfalso.
  apply Forall_inv in H. apply Nat.eqb_neq in H. apply Nat.eqb_eq in E.
  unfold JS.length in *.
  destruct l; simpl in E; [|rewrite append_length in E]; lia.
Qed.

(** The assignment to [value] in the closure of [evaluate] keeps it the
    join of the content read so far. *)
Lemma joined_snoc (seen : list string) (str : string) :
  (if negb (JS.length str =? 0)%nat
   then (if negb (JS.length (Session.joined seen) =? 0)%nat
         then Session.joined seen ++ LF else Session.joined seen) ++ str
   else Session.joined seen)
  = Session.joined (seen ++ [str]).
Proof.
  unfold Session.joined. rewrite filter_app. simpl.
  set (keep := filter _ seen).
  assert (K : Forall (fun s => (JS.length s =? 0)%nat = false) keep).
  { apply Forall_forall. intros s Hs. apply filter_In in Hs as [_ Hs].
    now apply negb_true_iff. }
  destruct (JS.length str =? 0)%nat eqn:E; simpl.
  - now rewrite app_nil_r.
  - destruct (JS.length (String.concat LF keep) =? 0)%nat eqn:E'; simpl.
    + now rewrite (concat_length_0 _ _ K E').
    + rewrite concat_snoc; [now rewrite append_assoc|].
      intros ->. discriminate E'.
Qed.

(** ** Reading effects *)

Local Open Scope list_scope.

Lemma tokens_app (es es' : list Effect) :
  Session.tokens (es ++ es') = Session.tokens es ++ Session.tokens es'.
Proof. apply flat_map_app. Qed.

Lemma calls_app (es es' : list Effect) :
  Session.calls (es ++ es') = Session.calls es ++ Session.calls es'.
Proof. apply flat_map_app. Qed.

Lemma writes_app (es es' : list Effect) :
  Session.writes (es ++ es') = Session.writes es ++ Session.writes es'.
Proof. apply flat_map_app. Qed.

Lemma signals_app (es es' : list Effect) :
  Session.signals (es ++ es') = Session.signals es ++ Session.signals es'.
Proof. apply flat_map_app. Qed.

Lemma warnings_app (es es' : list Effect) :
  Session.warnings (es ++ es') = Session.warnings es ++ Session.warnings es'.
Proof. apply flat_map_app. Qed.

Lemma asked_app (es es' : list Effect) :
  Session.asked (es ++ es') = Session.asked es ++ Session.asked es'.
Proof. apply flat_map_app. Qed.

(** Reading the effects of a state built by appending. *)
Ltac read_effects :=
  rewrite ?tokens_app, ?calls_app, ?writes_app, ?signals_app, ?warnings_app,
    ?asked_app;
  cbn [Session.tokens Session.calls Session.writes Session.signals
       Session.warnings Session.asked flat_map app];
  rewrite ?app_nil_r, <- ?app_assoc.

(** ** The command counter *)

(** Running the straight-line methods on a state taken apart. *)
Ltac run_methods rt :=
  destruct rt as [? ? ? ? [|] ? ? ?];
  unfold Expression.evaluate, Expression.isFunction, Runtime.waitSend,
    Runtime.waitSync, Runtime.evaluate, Runtime.addFolder,
    Runtime.disconnect, Runtime.sync, Runtime.send, Runtime.onExit,
    Runtime.onError, Runtime.unhandled, Runtime.debug, Runtime.warn,
    Runtime.addInputHandler;
  cbn [Runtime._commandNumber Runtime._processName Runtime._inputHandler
       Runtime._eventHandler Runtime._log Runtime._stdoutBuffer
       Runtime._stdoutHandled Runtime.effects Runtime.perform
       Runtime.setCommandNumber Runtime.setInputHandler
       Runtime.setEventHandler Runtime.setStdoutBuffer
       Runtime.setStdoutHandled Runtime.setLog fst snd].

Section Counter.

Variable MODULE_NAME : string.

Local Abbreviation counter := Runtime._commandNumber.

Local Open Scope N_scope.

Lemma evaluate_counter (e : string) (cb : Callback) (rt : Runtime.t) :
  counter (Runtime.evaluate MODULE_NAME e cb rt) = counter rt + 2.
Proof. run_methods rt; lia. Qed.

(** [sync] returns the counter and leaves it one higher. *)
Lemma sync_returns (rt : Runtime.t) :
  fst (Runtime.sync MODULE_NAME rt) = counter rt /\
  counter (snd (Runtime.sync MODULE_NAME rt)) = counter rt + 1.
Proof. run_methods rt; auto. Qed.

Lemma send_keepsCounter (cmd : string) :
  Session.keepsCounter (Runtime.send cmd).
Proof. intros rt. run_methods rt; lia. Qed.

Lemma sync_keepsCounter :
  Session.keepsCounter (fun rt => snd (Runtime.sync MODULE_NAME rt)).
Proof. intros rt. run_methods rt; lia. Qed.

Lemma waitSync_keepsCounter (cb : Callback) :
  Session.keepsCounter (Runtime.waitSync MODULE_NAME cb).
Proof. intros rt. run_methods rt; lia. Qed.

Lemma waitSend_keepsCounter (cmd : string) (cb : Callback) :
  Session.keepsCounter (Runtime.waitSend MODULE_NAME cmd cb).
Proof. intros rt. run_methods rt; lia. Qed.

Lemma evaluate_keepsCounter (e : string) (cb : Callback) :
  Session.keepsCounter (Runtime.evaluate MODULE_NAME e cb).
Proof. intros rt. rewrite evaluate_counter. lia. Qed.

Lemma isFunction_keepsCounter (compiled : option regex) (e : string)
  (cb : Callback) :
  Session.keepsCounter (Compiled.isFunction MODULE_NAME compiled e cb).
Proof.
  intros rt. destruct compiled; cbn [Compiled.isFunction]; [|lia].
  run_methods rt; lia.
Qed.

Lemma invoke_keepsCounter (cb : Callback) (arg : option string) :
  Session.keepsCounter (Runtime.invoke MODULE_NAME cb arg).
Proof.
  revert arg. induction cb as [id | e cb IH]; intros arg rt;
    cbn [Runtime.invoke].
  - destruct rt; cbn; lia.
  - destruct arg; [apply IH | apply evaluate_keepsCounter].
Qed.

Lemma unhandled_keepsCounter (data : string) :
  Session.keepsCounter (Runtime.unhandled MODULE_NAME data).
Proof.
  intros rt. unfold Runtime.unhandled.
  destruct (Runtime._stdoutHandled rt
            || testPrefix (Runtime.SYNC_REGEX MODULE_NAME) data);
    run_methods rt; lia.
Qed.

Lemma onStdout_keepsCounter (data : string) :
  Session.keepsCounter (Runtime.onStdout MODULE_NAME data).
Proof.
  intros rt. unfold Runtime.onStdout.
  destruct (Runtime._inputHandler rt) as [|h q];
    [apply unhandled_keepsCounter|].
  assert (H : counter rt
              <= counter (snd (Runtime.handle MODULE_NAME h data
                                 (Runtime.setInputHandler q rt)))).
  { destruct h; cbn [Runtime.handle];
      match goal with |- context [test ?r ?x] => destruct (test r x) end;
      cbn [snd];
      try (etransitivity; [|apply invoke_keepsCounter]);
      destruct rt; cbn; lia. }
  destruct (Runtime.handle _ _ _ _) as [[result h'] rt']. cbn [snd] in H.
  destruct result; cbn [negb].
  - etransitivity; [exact H | apply unhandled_keepsCounter].
  - destruct rt'; exact H.
Qed.

Lemma onStderr_keepsCounter (data : string) :
  Session.keepsCounter (Runtime.onStderr data).
Proof.
  intros rt. unfold Runtime.onStderr.
  assert (H : forall hs s, counter (snd (Runtime.some hs data s)) = counter s).
  { induction hs as [|h hs IH]; intros s; cbn [Runtime.some]; [reflexivity|].
    destruct (consumes h data); cbn [snd]; [|rewrite IH];
      destruct s; reflexivity. }
  specialize (H (Runtime._eventHandler rt) rt).
  destruct (Runtime.some _ _ _) as [b rt']. cbn [snd] in H.
  rewrite <- H. run_methods rt'; lia.
Qed.

(** No method of the engine and no listener lowers the counter. *)
Lemma step_keepsCounter (op : Session.Op) :
  Session.keepsCounter (Session.step MODULE_NAME op).
Proof.
  intros rt.
  destruct op as [cmd | | cb | cmd cb | e cb | e compiled cb
                 | e isConsole compiled cb | folder | folder fn | h | h | |
                 | log | | data | data | code
                 | msg connected killed listened];
    cbn [Session.step].
  - apply send_keepsCounter.
  - apply sync_keepsCounter.
  - apply waitSync_keepsCounter.
  - apply waitSend_keepsCounter.
  - apply evaluate_keepsCounter.
  - apply isFunction_keepsCounter.
  - destruct isConsole; cbn [Compiled.evaluate];
      [apply evaluate_keepsCounter | apply isFunction_keepsCounter].
  - run_methods rt; lia.
  - unfold Runtime.start. run_methods rt; lia.
  - destruct rt; cbn; lia.
  - destruct rt; cbn; lia.
  - destruct rt; cbn; lia.
  - destruct rt; cbn; lia.
  - destruct rt; cbn; lia.
  - run_methods rt; lia.
  - apply onStdout_keepsCounter.
  - apply onStderr_keepsCounter.
  - run_methods rt; lia.
  - unfold Runtime.onError. destruct listened; run_methods rt;
      cbn [fst]; lia.
Qed.

Lemma returned_bounded (between : list (Runtime.t -> Runtime.t)) :
  forall rt,
    Forall Session.keepsCounter between ->
    Forall (fun id => counter rt <= id)
      (Session.returned MODULE_NAME between rt) /\
    StronglySorted N.lt (Session.returned MODULE_NAME between rt).
Proof.
  induction between as [|f rest IH]; intros rt Hk; cbn [Session.returned].
  - split; constructor.
  - apply Forall_cons_iff in Hk as [Hf Hk].
    destruct (sync_returns (f rt)) as [R S].
    destruct (IH (snd (Runtime.sync MODULE_NAME (f rt))) Hk) as [B Sd].
    rewrite S in B. rewrite R. specialize (Hf rt). split.
    + constructor; [exact Hf|].
      eapply Forall_impl; [|exact B]. cbn. intros; lia.
    + constructor; [exact Sd|].
      eapply Forall_impl; [|exact B]. cbn. intros; lia.
Qed.

End Counter.

(** ** The queue of input handlers *)

Section Queue.

Variable MODULE_NAME : string.

Local Abbreviation queue := Runtime._inputHandler.
Local Abbreviation counter := Runtime._commandNumber.
Local Abbreviation calls_of := (fun rt => Session.calls (Runtime.effects rt)).
Local Abbreviation writes_of := (fun rt => Session.writes (Runtime.effects rt)).
Local Abbreviation syncRegEx := (Runtime.syncRegEx MODULE_NAME).
Local Abbreviation syncString := (Runtime.syncString MODULE_NAME).
Local Abbreviation evaluate := (Runtime.evaluate MODULE_NAME).
Local Abbreviation onStdout := (Runtime.onStdout MODULE_NAME).
Local Abbreviation deliver := (Session.deliver MODULE_NAME).

Lemma evaluate_observed (e : string) (cb : Callback) (rt : Runtime.t) :
  queue (evaluate e cb rt)
  = queue rt ++ [EvaluateHandler (syncRegEx (counter rt + 1)) "" cb] /\
  calls_of (evaluate e cb rt) = calls_of rt /\
  writes_of (evaluate e cb rt)
  = writes_of rt
    ++ [(e ++ LF)%string;
        (Runtime.echo (syncString (counter rt + 1)) ++ LF)%string].
Proof. run_methods rt; read_effects; auto. Qed.

Lemma isFunction_observed (e : string) (cb : Callback) (rt : Runtime.t) :
  queue (Expression.isFunction MODULE_NAME e cb rt)
  = queue rt
    ++ [IsFunctionHandler (Expression.isFuncRegex e)
          (syncRegEx (counter rt + 1)) None cb] /\
  calls_of (Expression.isFunction MODULE_NAME e cb rt) = calls_of rt.
Proof. run_methods rt; read_effects; auto. Qed.

Lemma unhandled_observed (data : string) (rt : Runtime.t) :
  queue (Runtime.unhandled MODULE_NAME data rt) = queue rt /\
  calls_of (Runtime.unhandled MODULE_NAME data rt) = calls_of rt.
Proof.
  unfold Runtime.unhandled.
  destruct (_ || _); run_methods rt; read_effects; auto.
Qed.

(** [onStdout] with a handler at the front of the queue: the handler is
    taken off, called, and put back unless it returned true. *)
Lemma onStdout_front (data : string) (rt rt' : Runtime.t)
  (h h' : InputHandler) (q : list InputHandler) (result : bool) :
  queue rt = h :: q ->
  Runtime.handle MODULE_NAME h data (Runtime.setInputHandler q rt)
  = (result, h', rt') ->
  queue (onStdout data rt) = (if result then queue rt' else h' :: queue rt') /\
  calls_of (onStdout data rt) = calls_of rt'.
Proof.
  intros Hq Hh. unfold Runtime.onStdout. rewrite Hq, Hh.
  destruct result; cbn [negb].
  - apply unhandled_observed.
  - destruct rt'; cbn; auto.
Qed.

(** A line that is not the marker of the [evaluate] closure at the front
    is added to its [value]; nothing is called. *)
Lemma onStdout_content (data : string) (rt : Runtime.t) (r : regex)
  (seen : list string) (cb : Callback) (q : list InputHandler) :
  queue rt
  = EvaluateHandler r (Session.joined (map Runtime.content seen)) cb :: q ->
  test r data = false ->
  queue (onStdout data rt)
  = EvaluateHandler r (Session.joined (map Runtime.content (seen ++ [data])))
      cb :: q /\
  calls_of (onStdout data rt) = calls_of rt.
Proof.
  intros Hq Ht.
  eapply onStdout_front in Hq as [Q C];
    [ | cbn [Runtime.handle]; rewrite Ht; reflexivity ].
  rewrite Q, C, joined_snoc, map_app. destruct rt; auto.
Qed.

(** The marker of the [evaluate] closure at the front takes it off the
    queue and calls its callback with [value]. *)
Lemma onStdout_marker (data : string) (rt : Runtime.t) (r : regex)
  (value : string) (id : nat) (q : list InputHandler) :
  queue rt = EvaluateHandler r value (External id) :: q ->
  test r data = true ->
  queue (onStdout data rt) = q /\
  calls_of (onStdout data rt) = calls_of rt ++ [(id, Some value)].
Proof.
  intros Hq Ht.
  eapply onStdout_front in Hq as [Q C];
    [ | cbn [Runtime.handle Runtime.invoke]; rewrite Ht; reflexivity ].
  rewrite Q, C. destruct rt; cbn. read_effects. auto.
Qed.

Lemma deliver_app (a b : list string) (rt : Runtime.t) :
  deliver (a ++ b) rt = deliver b (deliver a rt).
Proof. apply fold_left_app. Qed.

(** The output of an exchange, read by the [evaluate] closure at the
    front. *)
Lemma deliver_output (lines : list string) :
  forall (seen : list string) (rt : Runtime.t) (r : regex) (cb : Callback)
         (q : list InputHandler),
    queue rt
    = EvaluateHandler r (Session.joined (map Runtime.content seen)) cb :: q ->
    forallb (fun l => negb (test r l)) lines = true ->
    queue (deliver lines rt)
    = EvaluateHandler r
        (Session.joined (map Runtime.content (seen ++ lines))) cb :: q /\
    calls_of (deliver lines rt) = calls_of rt.
Proof.
  induction lines as [|l lines IH]; intros seen rt r cb q Hq Hl.
  - rewrite app_nil_r. auto.
  - cbn [forallb] in Hl. apply andb_true_iff in Hl as [Hl Hls].
    apply negb_true_iff in Hl.
    destruct (onStdout_content l rt r seen cb q Hq Hl) as [Q C].
    destruct (IH _ _ _ _ _ Q Hls) as [Q' C'].
    change (deliver (l :: lines) rt) with (deliver lines (onStdout l rt)).
    rewrite Q', C', C, <- app_assoc. auto.
Qed.

(** One whole exchange: output, then the marker behind prompts. *)
Lemma deliver_exchange (lines : list string) (k : nat) (token : N)
  (rt : Runtime.t) (id : nat) (q : list InputHandler) :
  queue rt = EvaluateHandler (syncRegEx token) "" (External id) :: q ->
  forallb (fun l => negb (test (syncRegEx token) l)) lines = true ->
  queue (deliver (lines ++ [Session.markerLine MODULE_NAME k token]) rt) = q /\
  calls_of (deliver (lines ++ [Session.markerLine MODULE_NAME k token]) rt)
  = calls_of rt ++ [(id, Some (Session.joined (map Runtime.content lines)))].
Proof.
  intros Hq Hl. rewrite deliver_app.
  destruct (deliver_output lines [] rt _ _ _ Hq Hl) as [Q C].
  cbn [app] in Q.
  assert (T : test (syncRegEx token) (Session.markerLine MODULE_NAME k token)
              = true) by (apply syncRegEx_test; eauto).
  destruct (onStdout_marker _ _ _ _ _ _ Q T) as [Q' C'].
  cbn [Session.deliver fold_left]. fold deliver.
  split; [exact Q' | now rewrite C', C].
Qed.

Lemma evaluateAll_observed (xs : list Session.Exchange) :
  forall rt,
    queue (Session.evaluateAll MODULE_NAME xs rt)
    = queue rt ++ Session.pending MODULE_NAME (Session.firstToken rt) xs /\
    calls_of (Session.evaluateAll MODULE_NAME xs rt) = calls_of rt.
Proof.
  induction xs as [|x xs IH]; intros rt; cbn [Session.evaluateAll Session.pending].
  - now rewrite app_nil_r.
  - destruct (IH (evaluate (Session.expression x)
                    (External (Session.callbackId x)) rt)) as [Q C].
    destruct (evaluate_observed (Session.expression x)
                (External (Session.callbackId x)) rt) as (Q1 & C1 & _).
    rewrite Q, C, Q1, C1, <- app_assoc. unfold Session.firstToken.
    rewrite evaluate_counter.
    replace (counter rt + 2 + 1)%N with (counter rt + 1 + 2)%N by lia. auto.
Qed.

(** The answers to the exchanges at the front of the queue: their
    callbacks are called in order, whatever waits behind them. *)
Lemma deliver_pending (xs : list Session.Exchange) :
  forall (token : N) (rt : Runtime.t) (rest : list InputHandler),
    queue rt = Session.pending MODULE_NAME token xs ++ rest ->
    Session.delimited MODULE_NAME token xs = true ->
    queue (deliver (Session.responses MODULE_NAME token xs) rt) = rest /\
    calls_of (deliver (Session.responses MODULE_NAME token xs) rt)
    = calls_of rt ++ Session.results xs.
Proof.
  induction xs as [|x xs IH]; intros token rt rest Hq Hd;
    cbn [Session.pending Session.responses Session.delimited Session.results
         map] in *.
  - rewrite app_nil_r. auto.
  - apply andb_true_iff in Hd as [Hl Hd].
    change (Session.output x
            ++ Session.markerLine MODULE_NAME (Session.prompts x) token
               :: Session.responses MODULE_NAME (token + 2) xs)
      with (Session.output x
            ++ [Session.markerLine MODULE_NAME (Session.prompts x) token]
            ++ Session.responses MODULE_NAME (token + 2) xs).
    rewrite app_assoc, deliver_app.
    destruct (deliver_exchange _ (Session.prompts x) _ _ _ _ Hq Hl) as [Q C].
    destruct (IH _ _ _ Q Hd) as [Q' C'].
    rewrite Q', C', C, <- app_assoc. auto.
Qed.

End Queue.

Lemma pending_app (M : string) (xs ys : list Session.Exchange) :
  forall token,
    Session.pending M token (xs ++ ys)
    = Session.pending M token xs
      ++ Session.pending M (token + 2 * N.of_nat (length xs)) ys.
Proof.
  induction xs as [|x xs IH]; intros token.
  - cbn. f_equal. lia.
  - cbn [app Session.pending length]. rewrite IH. cbn [app]. do 3 f_equal. lia.
Qed.

Lemma StronglySorted_lt_NoDup (l : list N) :
  StronglySorted N.lt l -> NoDup l.
Proof.
  induction 1 as [|a l _ IH Ha]; constructor; [|exact IH].
  intros Hin. rewrite Forall_forall in Ha. specialize (Ha _ Hin). lia.
Qed.

(** ** The closure of [isFunction] *)

Section IsFunction.

Variable MODULE_NAME : string.

Local Abbreviation queue := Runtime._inputHandler.
Local Abbreviation calls_of := (fun rt => Session.calls (Runtime.effects rt)).
Local Abbreviation onStdout := (Runtime.onStdout MODULE_NAME).
Local Abbreviation deliver := (Session.deliver MODULE_NAME).

Lemma lastMatch_snoc (r : regex) (seen : list string) (l : string) :
  Session.lastMatch r (seen ++ [l])
  = if test r l then Some l else Session.lastMatch r seen.
Proof. unfold Session.lastMatch. now rewrite rev_app_distr. Qed.

(** The lines before the marker, read by the [isFunction] closure at the
    front: [val] is the content of the last one its pattern accepts. *)
Lemma deliver_which (lines : list string) :
  forall (seen : list string) (rt : Runtime.t) (f r : regex) (cb : Callback)
         (q : list InputHandler),
    queue rt
    = IsFunctionHandler f r
        (option_map Runtime.content (Session.lastMatch f seen)) cb :: q ->
    forallb (fun l => negb (test r l)) lines = true ->
    queue (deliver lines rt)
    = IsFunctionHandler f r
        (option_map Runtime.content (Session.lastMatch f (seen ++ lines))) cb
      :: q /\
    calls_of (deliver lines rt) = calls_of rt.
Proof.
  induction lines as [|l lines IH]; intros seen rt f r cb q Hq Hl.
  - rewrite app_nil_r. auto.
  - cbn [forallb] in Hl. apply andb_true_iff in Hl as [Hl Hls].
    apply negb_true_iff in Hl.
    eapply onStdout_front in Hq as [Q C];
      [ | cbn [Runtime.handle]; rewrite Hl; reflexivity ].
    assert (Q' : queue (onStdout l rt)
                 = IsFunctionHandler f r
                     (option_map Runtime.content
                        (Session.lastMatch f (seen ++ [l]))) cb :: q).
    { rewrite Q, lastMatch_snoc. destruct (test f l), rt; reflexivity. }
    destruct (IH _ _ _ _ _ _ Q' Hls) as [Q'' C''].
    change (deliver (l :: lines) rt) with (deliver lines (onStdout l rt)).
    rewrite Q'', C'', C, <- app_assoc. destruct rt; auto.
Qed.

Lemma onStdout_which_marker (data : string) (rt : Runtime.t) (f r : regex)
  (val : option string) (id : nat) (q : list InputHandler) :
  queue rt = IsFunctionHandler f r val (External id) :: q ->
  test r data = true ->
  queue (onStdout data rt) = q /\
  calls_of (onStdout data rt) = calls_of rt ++ [(id, val)].
Proof.
  intros Hq Ht.
  eapply onStdout_front in Hq as [Q C];
    [ | cbn [Runtime.handle Runtime.invoke]; rewrite Ht; reflexivity ].
  rewrite Q, C. destruct rt; cbn. read_effects. auto.
Qed.

End IsFunction.

(** ** What calls a callback *)

Section Calls.

Variable MODULE_NAME : string.

Local Abbreviation calls_of := (fun rt => Session.calls (Runtime.effects rt)).
Local Abbreviation queue := Runtime._inputHandler.

Lemma some_observed (hs : list EventHandler) (data : string) :
  forall rt,
    Runtime.effects (snd (Runtime.some hs data rt))
    = Runtime.effects rt
      ++ map (fun h => Asked (handlerId h) data) (Session.upToFirst hs data) /\
    queue (snd (Runtime.some hs data rt)) = queue rt /\
    Runtime._eventHandler (snd (Runtime.some hs data rt))
    = Runtime._eventHandler rt /\
    Runtime._log (snd (Runtime.some hs data rt)) = Runtime._log rt.
Proof.
  induction hs as [|h hs IH]; intros rt; cbn [Runtime.some Session.upToFirst map].
  - rewrite app_nil_r. auto.
  - destruct (consumes h data); cbn [snd map].
    + destruct rt; cbn; auto.
    + destruct (IH (Runtime.perform (Asked (handlerId h) data) rt))
        as (E & Q & V & L).
      rewrite E, Q, V, L. destruct rt; cbn. rewrite <- app_assoc. auto.
Qed.

Lemma onStderr_effects (data : string) (rt : Runtime.t) :
  Runtime.effects (Runtime.onStderr data rt)
  = Runtime.effects rt
    ++ map (fun h => Asked (handlerId h) data)
         (Session.upToFirst (Runtime._eventHandler rt) data)
    ++ (if Runtime._log rt then [ConsoleLog (Some data)] else [])
    ++ [LoggerWarn (Some data)] /\
  queue (Runtime.onStderr data rt) = queue rt /\
  Runtime._eventHandler (Runtime.onStderr data rt) = Runtime._eventHandler rt.
Proof.
  unfold Runtime.onStderr.
  destruct (some_observed (Runtime._eventHandler rt) data rt) as (E & Q & V & L).
  destruct (Runtime.some _ _ _) as [b rt']. cbn [snd] in *.
  unfold Runtime.warn. rewrite <- L.
  destruct rt' as [? ? ? ? [|] ? ? ?]; cbn in *; subst;
    rewrite <- ?app_assoc; auto.
Qed.

Lemma upToFirst_stops (data : string) (pre post : list EventHandler)
  (h : EventHandler) :
  forallb (fun x => negb (consumes x data)) pre = true ->
  consumes h data = true ->
  Session.upToFirst (pre ++ h :: post) data = pre ++ [h].
Proof.
  intros Hpre Hh. induction pre as [|x pre IH]; cbn [app Session.upToFirst].
  - now rewrite Hh.
  - cbn [forallb] in Hpre. apply andb_true_iff in Hpre as [Hx Hpre].
    apply negb_true_iff in Hx. now rewrite Hx, IH.
Qed.

Lemma upToFirst_all (data : string) (hs : list EventHandler) :
  forallb (fun x => negb (consumes x data)) hs = true ->
  Session.upToFirst hs data = hs.
Proof.
  induction hs as [|x hs IH]; cbn [forallb Session.upToFirst]; [reflexivity|].
  intros H. apply andb_true_iff in H as [Hx H].
  apply negb_true_iff in Hx. now rewrite Hx, IH.
Qed.

Lemma calls_Asked (hs : list EventHandler) (data : string) :
  Session.calls (map (fun h => Asked (handlerId h) data) hs) = [].
Proof. induction hs; cbn; auto. Qed.

(** Only a line of the primary stream calls a callback. *)
Lemma step_calls (op : Session.Op) (rt : Runtime.t) :
  Session.isStdoutLine op = false ->
  calls_of (Session.step MODULE_NAME op rt) = calls_of rt.
Proof.
  destruct op as [cmd | | cb | cmd cb | e cb | e compiled cb
                 | e isConsole compiled cb | folder | folder fn | h | h | |
                 | log | | data | data | code
                 | msg connected killed listened];
    cbn [Session.step Session.isStdoutLine]; intros H; try discriminate H;
    unfold Runtime.sync, Compiled.evaluate, Compiled.isFunction,
      Runtime.onError, Runtime.start;
    cbn [fst snd];
    try destruct isConsole; try destruct compiled; try destruct listened;
    cbn [fst snd];
    try reflexivity;
    try (run_methods rt; read_effects; reflexivity);
    try (destruct rt; reflexivity).
  destruct (onStderr_effects data rt) as (E & _). rewrite E.
  read_effects. rewrite calls_Asked.
  destruct (Runtime._log rt); cbn; now rewrite app_nil_r.
Qed.

Lemma run_calls (ops : list Session.Op) :
  forall rt,
    forallb (fun op => negb (Session.isStdoutLine op)) ops = true ->
    calls_of (Session.run MODULE_NAME ops rt) = calls_of rt.
Proof.
  induction ops as [|op ops IH]; intros rt H; [reflexivity|].
  cbn [forallb] in H. apply andb_true_iff in H as [H1 H2].
  apply negb_true_iff in H1.
  change (Session.run MODULE_NAME (op :: ops) rt)
    with (Session.run MODULE_NAME ops (Session.step MODULE_NAME op rt)).
  now rewrite IH, step_calls.
Qed.

Lemma signals_Asked (hs : list EventHandler) (data : string) :
  Session.signals (map (fun h => Asked (handlerId h) data) hs) = [].
Proof. induction hs; cbn; auto. Qed.

Local Abbreviation exits_of :=
  (fun rt => Session.exits (Session.signals (Runtime.effects rt))).

Lemma invoke_exits (cb : Callback) :
  forall arg rt,
    exits_of (Runtime.invoke MODULE_NAME cb arg rt) = exits_of rt.
Proof.
  induction cb as [id | e cb IH]; intros arg rt; cbn [Runtime.invoke].
  - destruct rt; cbn [Runtime.perform Runtime.effects]. read_effects.
    now rewrite ?app_nil_r.
  - destruct arg; [apply IH|].
    run_methods rt; read_effects; now rewrite ?app_nil_r.
Qed.

Lemma unhandled_exits (data : string) (rt : Runtime.t) :
  exits_of (Runtime.unhandled MODULE_NAME data rt) = exits_of rt.
Proof.
  unfold Runtime.unhandled.
  destruct (Runtime._stdoutHandled rt
            || testPrefix (Runtime.SYNC_REGEX MODULE_NAME) data);
    run_methods rt; read_effects; now rewrite ?app_nil_r.
Qed.

Lemma onStdout_exits (data : string) (rt : Runtime.t) :
  exits_of (Runtime.onStdout MODULE_NAME data rt) = exits_of rt.
Proof.
  unfold Runtime.onStdout.
  destruct (Runtime._inputHandler rt) as [|h q]; [apply unhandled_exits|].
  assert (H : exits_of (snd (Runtime.handle MODULE_NAME h data
                               (Runtime.setInputHandler q rt)))
              = exits_of rt).
  { destruct h; cbn [Runtime.handle];
      match goal with |- context [test ?r ?x] => destruct (test r x) end;
      cbn [snd]; rewrite ?invoke_exits; destruct rt; reflexivity. }
  destruct (Runtime.handle _ _ _ _) as [[result h'] rt']. cbn [snd] in H.
  destruct result; cbn [negb].
  - now rewrite unhandled_exits.
  - destruct rt'; exact H.
Qed.

(** Only the 'close' event of the child emits 'exit'. *)
Lemma step_exits (op : Session.Op) (rt : Runtime.t) :
  Session.isExit op = false ->
  exits_of (Session.step MODULE_NAME op rt) = exits_of rt.
Proof.
  destruct op as [cmd | | cb | cmd cb | e cb | e compiled cb
                 | e isConsole compiled cb | folder | folder fn | h | h | |
                 | log | | data | data | code
                 | msg connected killed listened];
    cbn [Session.step Session.isExit]; intros H;
    try discriminate H; try apply onStdout_exits;
    unfold Runtime.sync, Compiled.evaluate, Compiled.isFunction,
      Runtime.onError, Runtime.start;
    cbn [fst snd];
    try destruct isConsole; try destruct compiled; try destruct listened;
    cbn [fst snd];
    try reflexivity;
    try (run_methods rt; read_effects; unfold Session.exits;
         rewrite ?filter_app, ?app_nil_r; cbn; rewrite ?app_nil_r;
         reflexivity);
    try (destruct rt; reflexivity).
  destruct (onStderr_effects data rt) as (E & _). rewrite E.
  read_effects. rewrite signals_Asked.
  destruct (Runtime._log rt); cbn; now rewrite app_nil_r.
Qed.

Lemma run_exits (ops : list Session.Op) :
  forall rt,
    forallb (fun op => negb (Session.isExit op)) ops = true ->
    exits_of (Session.run MODULE_NAME ops rt) = exits_of rt.
Proof.
  induction ops as [|op ops IH]; intros rt H; [reflexivity|].
  cbn [forallb] in H. apply andb_true_iff in H as [H1 H2].
  apply negb_true_iff in H1.
  change (Session.run MODULE_NAME (op :: ops) rt)
    with (Session.run MODULE_NAME ops (Session.step MODULE_NAME op rt)).
  now rewrite IH, step_exits.
Qed.

Lemma new_exits (processName sourceFolder : string) (log : bool) :
  exits_of (Runtime.new processName sourceFolder log) = [].
Proof. destruct log; reflexivity. Qed.

End Calls.

(** * The claims *)

Section Claims.

Variable MODULE_NAME : string.
Hypothesis MODULE_NAME_literal : isLiteral MODULE_NAME = true.

Local Abbreviation queue := Runtime._inputHandler.
Local Abbreviation calls_of := (fun rt => Session.calls (Runtime.effects rt)).
Local Abbreviation syncRegEx := (Runtime.syncRegEx MODULE_NAME).
Local Abbreviation syncString := (Runtime.syncString MODULE_NAME).
Local Abbreviation markerLine := (Session.markerLine MODULE_NAME).
Local Abbreviation deliver := (Session.deliver MODULE_NAME).

(** C1.  Some [evaluate] calls are made on an idle session, none waiting
    for a callback: first those of [xs], then those of [ys].  The child
    answers the exchanges of [xs] in order, each with its lines of output
    (none of them its own marker line) and then its marker line.  Then the
    callbacks of [xs] have been called in the order of the calls, each
    with the content of its own exchange's output and nothing else, and
    the handlers of [ys] wait in the queue in the order of the calls. *)
Theorem evaluate_callbacks_in_call_order
  (rt : Runtime.t) (xs ys : list Session.Exchange) :
  queue rt = [] ->
  Session.delimited MODULE_NAME (Session.firstToken rt) xs = true ->
  let rt' :=
    deliver (Session.responses MODULE_NAME (Session.firstToken rt) xs)
      (Session.evaluateAll MODULE_NAME (xs ++ ys) rt) in
  calls_of rt' = calls_of rt ++ Session.results xs /\
  queue rt'
  = Session.pending MODULE_NAME
      (Session.firstToken rt + 2 * N.of_nat (length xs)) ys.
Proof using MODULE_NAME_literal.
  intros Hq Hd rt'.
  destruct (evaluateAll_observed MODULE_NAME (xs ++ ys) rt) as [Q C].
  rewrite Hq, pending_app in Q. cbn [app] in Q.
  destruct (deliver_pending MODULE_NAME xs _ _ _ Q Hd) as [Q' C'].
  subst rt'. rewrite Q', C', C. auto.
Qed.

(** C2, as the code has it.  [evaluate] is called on an idle session and
    the child answers with some lines, none of them the marker line of the
    call's token, and then that marker line behind any number of prompts.
    Then the callback has been called once, with the lines' content
    joined by line feeds: each line without its leading prompts and without
    the white space around the rest, the lines left empty by that
    dropped. *)
Theorem evaluate_result_is_joined_content
  (rt : Runtime.t) (e : string) (id : nat) (lines : list string) (k : nat) :
  queue rt = [] ->
  forallb (fun l => negb (test (syncRegEx (Session.firstToken rt)) l)) lines
  = true ->
  let rt' :=
    deliver (lines ++ [markerLine k (Session.firstToken rt)])
      (Runtime.evaluate MODULE_NAME e (External id) rt) in
  calls_of rt'
  = calls_of rt ++ [(id, Some (Session.joined (map Runtime.content lines)))] /\
  queue rt' = [].
Proof using MODULE_NAME_literal.
  intros Hq Hl rt'. unfold Session.firstToken in *.
  destruct (evaluate_observed MODULE_NAME e (External id) rt) as (Q & C & _).
  rewrite Hq in Q. cbn [app] in Q.
  destruct (deliver_exchange MODULE_NAME lines k _ _ _ _ Q Hl) as [Q' C'].
  subst rt'. rewrite Q', C', C. auto.
Qed.

(** C3, as the code has it.  [isFunction] is called on an idle session
    with a name that is a run of literals in a pattern, and the child
    answers with some lines, none of them the marker line of the call's
    token, and then that marker line.  Then the callback has been called
    once: with the content of the last line that the "is a function from
    the file" pattern accepts (the line without leading prompts and
    surrounding white space), or with undefined when it accepts none. *)
Theorem isFunction_result_is_last_match
  (rt : Runtime.t) (name : string) (id : nat) (lines : list string) (k : nat) :
  isLiteral name = true ->
  queue rt = [] ->
  forallb (fun l => negb (test (syncRegEx (Session.firstToken rt)) l)) lines
  = true ->
  let rt' :=
    deliver (lines ++ [markerLine k (Session.firstToken rt)])
      (Expression.isFunction MODULE_NAME name (External id) rt) in
  calls_of rt'
  = calls_of rt
    ++ [(id, option_map Runtime.content
               (Session.lastMatch (Expression.isFuncRegex name) lines))] /\
  queue rt' = [].
Proof using MODULE_NAME_literal.
  intros _ Hq Hl rt'. unfold Session.firstToken in *.
  destruct (isFunction_observed MODULE_NAME name (External id) rt) as (Q & C).
  rewrite Hq in Q. cbn [app] in Q.
  destruct (deliver_which MODULE_NAME lines [] _ _ _ _ _ Q Hl) as [Q1 C1].
  cbn [app] in Q1.
  assert (T : test (syncRegEx (Runtime._commandNumber rt + 1))
                (markerLine k (Runtime._commandNumber rt + 1)) = true)
    by (apply syncRegEx_test; eauto).
  destruct (onStdout_which_marker MODULE_NAME _ _ _ _ _ _ _ Q1 T) as [Q2 C2].
  subst rt'. rewrite deliver_app. cbn [Session.deliver fold_left].
  fold deliver. rewrite Q2, C2, C1, C. auto.
Qed.

(** C4, as the code has it.  Handlers are registered at the end of the
    list.  For a line of the secondary stream they are called in that
    order: all of them when none returns true, and otherwise those up to
    the first that returns true and none after it.  The line is then
    passed to the log as a warning, whether or not a handler returned
    true. *)
Theorem onStderr_asks_in_order_and_warns
  (rt : Runtime.t) (data : string) (h : EventHandler) :
  let rt' := Runtime.onStderr data rt in
  let asked_of rt := Session.asked (Runtime.effects rt) in
  let ask := map (fun h => (handlerId h, data)) in
  Runtime._eventHandler (Runtime.addEventHandler h rt)
  = Runtime._eventHandler rt ++ [h] /\
  asked_of rt'
  = asked_of rt ++ ask (Session.upToFirst (Runtime._eventHandler rt) data) /\
  (forallb (fun x => negb (consumes x data)) (Runtime._eventHandler rt) = true ->
   asked_of rt' = asked_of rt ++ ask (Runtime._eventHandler rt)) /\
  (forall pre first post,
      Runtime._eventHandler rt = pre ++ first :: post ->
      forallb (fun x => negb (consumes x data)) pre = true ->
      consumes first data = true ->
      asked_of rt' = asked_of rt ++ ask (pre ++ [first])) /\
  Session.warnings (Runtime.effects rt')
  = Session.warnings (Runtime.effects rt) ++ [Some data].
Proof.
  intros rt' asked_of ask. destruct (onStderr_effects data rt) as (E & _).
  assert (A : forall hs, Session.asked (map (fun h => Asked (handlerId h) data) hs)
                         = ask hs).
  { induction hs as [|x hs IH]; [reflexivity|].
    unfold Session.asked in *. cbn [map flat_map app]. now rewrite IH. }
  assert (W : forall hs,
             Session.warnings (map (fun h => Asked (handlerId h) data) hs) = []).
  { induction hs; cbn; auto. }
  assert (G : asked_of rt'
              = asked_of rt
                ++ ask (Session.upToFirst (Runtime._eventHandler rt) data)).
  { subst rt' asked_of. cbn beta. rewrite E. read_effects. rewrite A.
    destruct (Runtime._log rt); cbn; now rewrite ?app_nil_r. }
  split; [destruct rt; reflexivity|].
  split; [exact G|].
  split; [intros H; now rewrite G, upToFirst_all|].
  split; [intros pre first post Hs Hpre Hf; now rewrite G, Hs, upToFirst_stops|].
  subst rt'. rewrite E. read_effects. rewrite W.
  destruct (Runtime._log rt); cbn; now rewrite ?app_nil_r.
Qed.

(** C5.  Whatever happens to a session between its calls of [sync], as
    long as it leaves the counter where it is or raises it, the tokens
    that the calls return are strictly increasing in the order of the
    calls, and none is returned twice.  Every method of the engine and
    every listener leaves the counter or raises it, so this holds with
    any runs of them between the calls. *)
Theorem sync_tokens_strictly_increasing
  (between : list (Runtime.t -> Runtime.t)) (runs : list (list Session.Op))
  (rt : Runtime.t) :
  (Forall Session.keepsCounter between ->
   StronglySorted N.lt (Session.returned MODULE_NAME between rt) /\
   NoDup (Session.returned MODULE_NAME between rt)) /\
  (let between := map (Session.run MODULE_NAME) runs in
   StronglySorted N.lt (Session.returned MODULE_NAME between rt) /\
   NoDup (Session.returned MODULE_NAME between rt)).
Proof.
  assert (G : forall fs,
             Forall Session.keepsCounter fs ->
             StronglySorted N.lt (Session.returned MODULE_NAME fs rt) /\
             NoDup (Session.returned MODULE_NAME fs rt)).
  { intros fs Hk. destruct (returned_bounded MODULE_NAME fs rt Hk) as [_ S].
    split; [exact S | apply StronglySorted_lt_NoDup, S]. }
  split; [apply G|]. apply G.
  apply Forall_forall. intros f Hf. apply in_map_iff in Hf as (ops & <- & _).
  clear. induction ops as [|op ops IH]; intros s; [cbn; lia|].
  change (Session.run MODULE_NAME (op :: ops) s)
    with (Session.run MODULE_NAME ops (Session.step MODULE_NAME op s)).
  etransitivity; [apply (step_keepsCounter MODULE_NAME op) | apply IH].
Qed.

(** C6.  Node emits the 'close' event of the child after its streams
    have ended, so no line of the primary stream is read once the child
    has exited or failed.  Under that order, whatever is called and
    whatever else happens afterwards, no callback is called any more: the
    handlers in the queue are left there by the exit, neither called nor
    sent again.  The exit is signalled by the 'close' event, and by
    nothing else: in a session with one 'close' event, exactly once. *)
Theorem exit_abandons_handlers
  (rt : Runtime.t) (code : option Z) (msg : string)
  (connected killed listened : bool) (ops : list Session.Op) :
  forallb (fun op => negb (Session.isStdoutLine op)) ops = true ->
  let exited := Runtime.onExit code rt in
  let errored := fst (Runtime.onError msg connected killed listened rt) in
  let exits_of rt := Session.exits (Session.signals (Runtime.effects rt)) in
  (queue exited = queue rt /\ queue errored = queue rt) /\
  (Session.writes (Runtime.effects exited) = Session.writes (Runtime.effects rt) /\
   Session.writes (Runtime.effects errored)
   = Session.writes (Runtime.effects rt)) /\
  (calls_of (Session.run MODULE_NAME ops exited) = calls_of rt /\
   calls_of (Session.run MODULE_NAME ops errored) = calls_of rt) /\
  (forallb (fun op => negb (Session.isExit op)) ops = true ->
   exits_of (Session.run MODULE_NAME ops exited)
   = exits_of rt ++ ["exit"%string]) /\
  (forall (processName sourceFolder : string) (log : bool)
          (before : list Session.Op),
     rt = Session.run MODULE_NAME before
            (Runtime.new processName sourceFolder log) ->
     forallb (fun op => negb (Session.isExit op)) (before ++ ops) = true ->
     exits_of (Session.run MODULE_NAME ops exited) = ["exit"%string]).
Proof.
  intros H exited errored exits_of.
  assert (X : queue exited = queue rt /\
              Session.writes (Runtime.effects exited)
              = Session.writes (Runtime.effects rt) /\
              calls_of exited = calls_of rt /\
              exits_of exited = exits_of rt ++ ["exit"%string]).
  { subst exited exits_of. cbn beta. unfold Session.exits.
    run_methods rt; read_effects; rewrite ?filter_app; cbn;
      rewrite ?app_nil_r; auto. }
  assert (R : queue errored = queue rt /\
              Session.writes (Runtime.effects errored)
              = Session.writes (Runtime.effects rt) /\
              calls_of errored = calls_of rt).
  { subst errored. unfold Runtime.onError.
    destruct listened; run_methods rt; cbn [fst]; read_effects; auto. }
  destruct X as (Q & W & C & E). destruct R as (Q' & W' & C').
  split; [auto|]. split; [auto|].
  split; [now rewrite !run_calls, C, C' by exact H|].
  assert (G : forallb (fun op => negb (Session.isExit op)) ops = true ->
              exits_of (Session.run MODULE_NAME ops exited)
              = exits_of rt ++ ["exit"%string]).
  { intros H'. subst exits_of. cbn beta in *. now rewrite run_exits, E. }
  split; [exact G|].
  intros processName sourceFolder log before Hrt Hb.
  rewrite forallb_app in Hb. apply andb_true_iff in Hb as [Hb Ho].
  rewrite (G Ho). subst exits_of. cbn beta. subst rt.
  now rewrite run_exits, new_exits by exact Hb.
Qed.

(** C7.  Leading repetitions of the prompt make no difference to the
    content read from a line, and are all removed when the rest does not
    begin with the prompt: two prompts and "some text" give "some text".
    The pattern of a token accepts a line exactly when the line is some
    repetitions of the prompt followed by the marker text of the token. *)
Theorem prompts_stripped_marker_matched :
  (forall (n : nat) (text : string),
      Runtime.content (JS.repeat Runtime.PROMPT n ++ text)%string
      = Runtime.content text) /\
  (forall (n : nat) (text : string),
      ~ JS.startsWith Runtime.PROMPT text ->
      removePrefix Runtime.PROMPT_REGEX
        (JS.repeat Runtime.PROMPT n ++ text)%string
      = text) /\
  Runtime.content (Runtime.PROMPT ++ Runtime.PROMPT ++ "some text")%string
  = "some text"%string /\
  (forall (id : N) (line : string),
      test (syncRegEx id) line = true <->
      exists k, line = (JS.repeat Runtime.PROMPT k ++ syncString id)%string).
Proof using MODULE_NAME_literal.
  split; [exact content_prompts|].
  split; [intros n text; apply removePrefix_repeat|].
  split; [reflexivity|].
  intros id line. apply syncRegEx_test.
Qed.

(** C8, as the code has it.  A line read from the primary stream while
    the queue is empty calls no callback, emits no signal, leaves the queue
    empty and is not added to the buffer.  It is passed on unchanged, as a
    warning, when the last line read was not handled and the line does not
    begin like a marker (prompts, letters s, the namespace); a line that
    does begin like one is not passed on: the buffer is logged and
    emptied. *)
Theorem unclassified_line_logged (rt : Runtime.t) (data : string) :
  queue rt = [] ->
  let rt' := Runtime.onStdout MODULE_NAME data rt in
  queue rt' = [] /\ calls_of rt' = calls_of rt /\
  Session.signals (Runtime.effects rt') = Session.signals (Runtime.effects rt) /\
  (Runtime._stdoutBuffer rt' = Runtime._stdoutBuffer rt \/
   Runtime._stdoutBuffer rt' = Some ""%string) /\
  (Runtime._stdoutHandled rt
   || testPrefix (Runtime.SYNC_REGEX MODULE_NAME) data = false ->
   rt' = Runtime.warn (Some data) rt /\
   Session.warnings (Runtime.effects rt')
   = Session.warnings (Runtime.effects rt) ++ [Some data] /\
   Runtime._stdoutBuffer rt' = Runtime._stdoutBuffer rt) /\
  (testPrefix (Runtime.SYNC_REGEX MODULE_NAME) data = true ->
   Session.warnings (Runtime.effects rt')
   = Session.warnings (Runtime.effects rt) /\
   Runtime._stdoutBuffer rt' = Some ""%string).
Proof using MODULE_NAME_literal.
  intros Hq rt'. subst rt'. unfold Runtime.onStdout. rewrite Hq.
  unfold Runtime.unhandled.
  destruct (Runtime._stdoutHandled rt) eqn:Hh;
    destruct (testPrefix (Runtime.SYNC_REGEX MODULE_NAME) data) eqn:Hs;
    cbn [orb];
    run_methods rt; cbn in Hq; subst; read_effects;
    repeat split; auto; try discriminate.
Qed.

(** C9.  The pattern of token [t] accepts the marker line of token [t'],
    behind any number of prompts, exactly when [t = t']: the pattern of
    token 1 rejects the marker of token 13, and the other way round. *)
Theorem marker_accepted_iff_same_token (t t' : N) (k : nat) :
  (test (syncRegEx t) (markerLine k t') = true <-> t = t') /\
  test (syncRegEx 1) (syncString 13) = false /\
  test (syncRegEx 13) (syncString 1) = false.
Proof using MODULE_NAME_literal.
  assert (G : forall a b j, test (syncRegEx a) (markerLine j b) = true <-> a = b).
  { intros a b j. rewrite syncRegEx_test. split.
    - intros (j' & E). apply markerLine_inj in E as [_ E]. auto.
    - intros ->. eauto. }
  split; [apply G|].
  split; apply not_true_iff_false; intros H.
  - apply (G 1%N 13%N 0) in H. discriminate H.
  - apply (G 13%N 1%N 0) in H. discriminate H.
Qed.

(** C10, as the code has it.  For a console expression that is not empty,
    [Expression.evaluate] hands [Runtime.evaluate] the expression without
    its first character, which is not the expression; what is written to
    the child is that command and then the echo of the marker. *)
Theorem console_evaluate_sends_tail
  (expression : string) (callback : Callback) (rt : Runtime.t) :
  expression <> ""%string ->
  let rt' := Expression.evaluate MODULE_NAME expression true callback rt in
  rt' = Runtime.evaluate MODULE_NAME (JS.substr 1 expression) callback rt /\
  Session.writes (Runtime.effects rt')
  = Session.writes (Runtime.effects rt)
    ++ [(JS.substr 1 expression ++ LF)%string;
        (Runtime.echo (syncString (Runtime._commandNumber rt + 1)) ++ LF)%string]
  /\
  JS.substr 1 expression <> expression /\
  exists c, expression = String c (JS.substr 1 expression).
Proof.
  intros Hne rt'. subst rt'. cbn [Expression.evaluate].
  split; [reflexivity|].
  split; [apply evaluate_observed|].
  destruct expression as [|c e]; [congruence|].
  split; [apply substr_1_neq | exists c; reflexivity].
Qed.

End Claims.

(** * The claims on a sample session *)

Local Open Scope string_scope.

(** Three calls of [evaluate] on a fresh session; the child has answered
    the first two, the second behind two prompts and with a prompt, an
    empty line and the marker of the first call in its output. *)
Lemma evaluate_callbacks_in_call_order_witness :
  let xs :=
    [Session.mkExchange "1+1" 10 ["ans = 2"] 0;
     Session.mkExchange "x" 11
       ["debug> x = 3"; ""; "vsc::OctaveDebugger:2"] 2]%list in
  let ys := [Session.mkExchange "y" 12 [] 0]%list in
  let rt' :=
    Session.deliver Sample.MODULE_NAME
      (Session.responses Sample.MODULE_NAME 2 xs)
      (Session.evaluateAll Sample.MODULE_NAME (xs ++ ys)%list Sample.fresh) in
  isLiteral Sample.MODULE_NAME = true /\
  Runtime._inputHandler Sample.fresh = []%list /\
  Session.delimited Sample.MODULE_NAME 2 xs = true /\
  Session.calls (Runtime.effects rt')
  = [(10, Some "ans = 2");
     (11, Some (String.concat LF ["x = 3"; "vsc::OctaveDebugger:2"]))]%list /\
  Runtime._inputHandler rt'
  = [EvaluateHandler (Runtime.syncRegEx Sample.MODULE_NAME 6) ""
       (External 12)]%list.
Proof.
  intros xs ys rt'.
  split; [reflexivity|]. split; [reflexivity|]. split; [reflexivity|].
  exact (evaluate_callbacks_in_call_order Sample.MODULE_NAME eq_refl
           Sample.fresh xs ys eq_refl eq_refl).
Defined.

Lemma prompts_stripped_marker_matched_witness :
  isLiteral Sample.MODULE_NAME = true /\
  Runtime.content "debug> debug> debug>   ans = 2 "
  = Runtime.content "  ans = 2 " /\
  removePrefix Runtime.PROMPT_REGEX "debug> debug> ans = 2" = "ans = 2" /\
  test (Runtime.syncRegEx Sample.MODULE_NAME 3)
    "debug> debug> vsc::OctaveDebugger:3" = true.
Proof.
  split; [reflexivity|].
  destruct (prompts_stripped_marker_matched Sample.MODULE_NAME eq_refl)
    as (A & B & _ & D).
  split; [exact (A 3 "  ans = 2 ")|].
  split.
  - apply (B 2 "ans = 2"). intros (z & E). discriminate E.
  - apply D. exists 2. reflexivity.
Defined.

Lemma marker_accepted_iff_same_token_witness :
  isLiteral Sample.MODULE_NAME = true /\
  test (Runtime.syncRegEx Sample.MODULE_NAME 1) "debug> vsc::OctaveDebugger:1"
  = true /\
  test (Runtime.syncRegEx Sample.MODULE_NAME 1) "vsc::OctaveDebugger:13"
  = false.
Proof.
  split; [reflexivity|].
  destruct (marker_accepted_iff_same_token Sample.MODULE_NAME eq_refl 1 1 1)
    as (A & B & _).
  split; [apply A; reflexivity | exact B].
Defined.

(** The two instances the claim names: "ans = 2" and then the marker,
    and the marker alone. *)
Lemma evaluate_result_is_joined_content_witness :
  let answered lines :=
    Session.calls
      (Runtime.effects
         (Session.deliver Sample.MODULE_NAME
            (lines ++ ["vsc::OctaveDebugger:2"])%list
            (Runtime.evaluate Sample.MODULE_NAME "1+1" (External 7)
               Sample.fresh))) in
  isLiteral Sample.MODULE_NAME = true /\
  Runtime._inputHandler Sample.fresh = []%list /\
  answered ["ans = 2"]%list = [(7, Some "ans = 2")]%list /\
  answered []%list = [(7, Some "")]%list.
Proof.
  intros answered.
  split; [reflexivity|]. split; [reflexivity|]. split.
  - exact (proj1 (evaluate_result_is_joined_content Sample.MODULE_NAME eq_refl
                    Sample.fresh "1+1" 7 ["ans = 2"]%list 0 eq_refl eq_refl)).
  - exact (proj1 (evaluate_result_is_joined_content Sample.MODULE_NAME eq_refl
                    Sample.fresh "1+1" 7 []%list 0 eq_refl eq_refl)).
Defined.

(** The callback's value is not the join of the lines without their
    prompts: Octave indents its output, and the indentation is gone. *)
Lemma evaluate_result_is_trimmed :
  let lines := ["   1   2"]%list in
  let rt' :=
    Session.deliver Sample.MODULE_NAME
      (lines ++ ["vsc::OctaveDebugger:2"])%list
      (Runtime.evaluate Sample.MODULE_NAME "[1 2]" (External 7) Sample.fresh) in
  Session.calls (Runtime.effects rt') = [(7, Some "1   2")]%list /\
  Session.calls (Runtime.effects rt')
  <> [(7, Some (Session.joined
                  (map (removePrefix Runtime.PROMPT_REGEX) lines)))]%list.
Proof. split; [reflexivity | discriminate]. Qed.

(** The two instances the claim names. *)
Lemma isFunction_result_is_last_match_witness :
  let answered lines :=
    Session.calls
      (Runtime.effects
         (Session.deliver Sample.MODULE_NAME
            (lines ++ ["vsc::OctaveDebugger:2"])%list
            (Expression.isFunction Sample.MODULE_NAME "sin" (External 3)
               Sample.fresh))) in
  isLiteral Sample.MODULE_NAME = true /\
  isLiteral "sin" = true /\
  Runtime._inputHandler Sample.fresh = []%list /\
  answered ["'sin' is a built-in function from the file /x/sin.m"]%list
  = [(3, Some "'sin' is a built-in function from the file /x/sin.m")]%list /\
  answered ["ans = 4"]%list = [(3, None)]%list.
Proof.
  intros answered.
  split; [reflexivity|]. split; [reflexivity|]. split; [reflexivity|]. split.
  - exact (proj1 (isFunction_result_is_last_match Sample.MODULE_NAME eq_refl
                    Sample.fresh "sin" 3
                    ["'sin' is a built-in function from the file /x/sin.m"]%list
                    0 eq_refl eq_refl eq_refl)).
  - exact (proj1 (isFunction_result_is_last_match Sample.MODULE_NAME eq_refl
                    Sample.fresh "sin" 3 ["ans = 4"]%list
                    0 eq_refl eq_refl eq_refl)).
Defined.

(** Of two lines that the pattern accepts, the callback gets the second,
    not the first. *)
Lemma isFunction_keeps_last_match :
  let lines := ["'f' is a function from the file /a/f.m";
                "'f' is a command-line function from the file /b/f.m"]%list in
  let rt' :=
    Session.deliver Sample.MODULE_NAME
      (lines ++ ["vsc::OctaveDebugger:2"])%list
      (Expression.isFunction Sample.MODULE_NAME "f" (External 3)
         Sample.fresh) in
  Session.calls (Runtime.effects rt')
  = [(3, Some "'f' is a command-line function from the file /b/f.m")]%list /\
  Session.calls (Runtime.effects rt')
  <> [(3, option_map Runtime.content
            (Session.firstMatch (Expression.isFuncRegex "f") lines))]%list.
Proof. split; [vm_compute; reflexivity | vm_compute; discriminate]. Qed.

(** Three handlers and a line that the second is the first to consume:
    the first and the second are called, the third is not. *)
Lemma onStderr_asks_in_order_and_warns_witness :
  let data := "error: 'x' undefined" in
  let rt' := Runtime.onStderr data Sample.watched in
  map handlerId (Runtime._eventHandler Sample.watched) = [1; 2; 3]%list /\
  map (fun h => consumes h data) (Runtime._eventHandler Sample.watched)
  = [false; true; true]%list /\
  Session.asked (Runtime.effects rt') = [(1, data); (2, data)]%list /\
  Session.warnings (Runtime.effects rt') = [Some data]%list.
Proof.
  intros data rt'. split; [reflexivity|]. split; [reflexivity|].
  destruct (onStderr_asks_in_order_and_warns Sample.watched data
              (mkEventHandler 4 (fun _ => true))) as (_ & _ & _ & S & W).
  split; [|exact W].
  exact (S [mkEventHandler 1 (fun _ => false)]%list
           (mkEventHandler 2 Sample.isError)
           [mkEventHandler 3 Sample.isError]%list eq_refl eq_refl eq_refl).
Defined.

(** A line that a handler consumed is passed to the log as a warning all
    the same. *)
Lemma onStderr_warns_consumed_line :
  let rt' := Runtime.onStderr "error: boom" Sample.listening in
  Session.asked (Runtime.effects rt') = [(0, "error: boom")]%list /\
  ~ (In (Some "error: boom") (Session.warnings (Runtime.effects rt')) <->
     existsb (fun h => consumes h "error: boom")
       (Runtime._eventHandler Sample.listening) = false).
Proof.
  split; [reflexivity|]. intros [H _].
  assert (E : true = false) by (apply H; cbn; auto). discriminate E.
Qed.

(** Calls of [sync] on a fresh session, with an evaluation and its answer,
    nothing, and a command sent in between. *)
Lemma sync_tokens_strictly_increasing_witness :
  let between :=
    [Session.run Sample.MODULE_NAME
       [Session.CallEvaluate "1+1" (External 1);
        Session.StdoutLine "ans = 2";
        Session.StdoutLine "vsc::OctaveDebugger:2"]%list;
     (fun rt => rt);
     Runtime.send "x = 1"]%list in
  Forall Session.keepsCounter between /\
  Session.returned Sample.MODULE_NAME between Sample.fresh = [3; 4; 6]%N%list /\
  StronglySorted N.lt
    (Session.returned Sample.MODULE_NAME between Sample.fresh).
Proof.
  intros between.
  assert (K : Forall Session.keepsCounter between).
  { repeat constructor.
    - intros s. cbn [Session.run fold_left].
      etransitivity; [apply (step_keepsCounter Sample.MODULE_NAME)|].
      etransitivity; [apply (step_keepsCounter Sample.MODULE_NAME)|].
      apply (step_keepsCounter Sample.MODULE_NAME).
    - intros s. apply N.le_refl.
    - apply send_keepsCounter. }
  split; [exact K|]. split; [reflexivity|].
  exact (proj1 (proj1 (sync_tokens_strictly_increasing Sample.MODULE_NAME
                         between []%list Sample.fresh) K)).
Defined.

(** A child that could not be spawned: the error, then the 'close' event
    with a negative code; an evaluation asked for before and one asked
    for after are never answered. *)
Lemma exit_abandons_handlers_witness :
  let before := [Session.CallEvaluate "1+1" (External 7)]%list in
  let rt :=
    Session.run Sample.MODULE_NAME before
      (Runtime.new "octave-cli" "/src" false) in
  let ops :=
    [Session.Error "Error: spawn octave-cli ENOENT" false false true;
     Session.StderrLine "error: boom";
     Session.CallEvaluate "2+2" (External 8);
     Session.CallDisconnect]%list in
  let later :=
    Session.run Sample.MODULE_NAME ops (Runtime.onExit (Some (-2)%Z) rt) in
  forallb (fun op => negb (Session.isStdoutLine op)) ops = true /\
  forallb (fun op => negb (Session.isExit op)) (before ++ ops) = true /\
  Runtime._inputHandler (Runtime.onExit (Some (-2)%Z) rt)
  = Runtime._inputHandler rt /\
  Session.calls (Runtime.effects later) = []%list /\
  Session.exits (Session.signals (Runtime.effects later)) = ["exit"]%list.
Proof.
  intros before rt ops later. split; [reflexivity|]. split; [reflexivity|].
  destruct (exit_abandons_handlers Sample.MODULE_NAME rt (Some (-2)%Z) "" false
              false true ops eq_refl) as ((Q & _) & _ & (C & _) & _ & E).
  split; [exact Q|].
  split; [exact C | exact (E "octave-cli" "/src" false before eq_refl eq_refl)].
Defined.

(** A marker line that nothing waits for is not passed on: the buffer,
    still undefined, is logged in its place. *)
Lemma stray_marker_not_forwarded :
  let rt' :=
    Runtime.onStdout Sample.MODULE_NAME "vsc::OctaveDebugger:7" Sample.fresh in
  Runtime._inputHandler Sample.fresh = []%list /\
  Runtime.effects rt' = (Runtime.effects Sample.fresh ++ [LoggerLog None])%list /\
  ~ In (Some "vsc::OctaveDebugger:7") (Session.warnings (Runtime.effects rt')).
Proof.
  split; [reflexivity|]. split; [reflexivity|]. cbn. tauto.
Qed.

Lemma unclassified_line_logged_witness :
  let rt' := Runtime.onStdout Sample.MODULE_NAME "warning: x" Sample.fresh in
  isLiteral Sample.MODULE_NAME = true /\
  Runtime._inputHandler Sample.fresh = []%list /\
  Session.warnings (Runtime.effects rt') = [Some "warning: x"]%list /\
  Runtime._stdoutBuffer rt' = None.
Proof.
  intros rt'. split; [reflexivity|]. split; [reflexivity|].
  destruct (unclassified_line_logged Sample.MODULE_NAME eq_refl Sample.fresh
              "warning: x" eq_refl) as (_ & _ & _ & _ & W & _).
  destruct (W eq_refl) as (_ & W1 & W2). split; [exact W1 | exact W2].
Defined.

Lemma console_evaluate_sends_tail_witness :
  "?x + 1" <> "" /\
  Session.writes
    (Runtime.effects
       (Expression.evaluate Sample.MODULE_NAME "?x + 1" true (External 0)
          Sample.fresh))
  = (Session.writes (Runtime.effects Sample.fresh)
     ++ [("x + 1" ++ LF)%string;
         (Runtime.echo (Runtime.syncString Sample.MODULE_NAME 2) ++ LF)%string])%list.
Proof.
  assert (N : "?x + 1" <> "") by discriminate.
  split; [exact N|].
  exact (proj1 (proj2 (console_evaluate_sends_tail Sample.MODULE_NAME "?x + 1"
                         (External 0) Sample.fresh N))).
Defined.

(** The empty console expression: the command handed on and written is
    the expression itself. *)
Lemma console_evaluate_empty_expression :
  let rt' :=
    Expression.evaluate Sample.MODULE_NAME "" true (External 0) Sample.fresh in
  rt' = Runtime.evaluate Sample.MODULE_NAME "" (External 0) Sample.fresh /\
  Session.writes (Runtime.effects rt')
  = (Session.writes (Runtime.effects Sample.fresh)
     ++ [("" ++ LF)%string;
         (Runtime.echo (Runtime.syncString Sample.MODULE_NAME 2) ++ LF)%string])%list /\
  JS.substr 1 "" = "".
Proof. repeat split. Qed.

(** * More of the engine *)

Local Open Scope list_scope.

(** ** Requests of any kind, in the order they are made *)

Section AnyRequests.

Variable MODULE_NAME : string.
Hypothesis MODULE_NAME_literal : isLiteral MODULE_NAME = true.

Local Abbreviation queue := Runtime._inputHandler.
Local Abbreviation counter := Runtime._commandNumber.
Local Abbreviation calls_of := (fun rt => Session.calls (Runtime.effects rt)).
Local Abbreviation writes_of := (fun rt => Session.writes (Runtime.effects rt)).
Local Abbreviation syncRegEx := (Runtime.syncRegEx MODULE_NAME).
Local Abbreviation markerLine := (Session.markerLine MODULE_NAME).
Local Abbreviation onStdout := (Runtime.onStdout MODULE_NAME).
Local Abbreviation deliver := (Session.deliver MODULE_NAME).
Local Abbreviation issue := (Requests.issue MODULE_NAME).
Local Abbreviation issueAll := (Requests.issueAll MODULE_NAME).

Lemma issue_observed (r : Requests.Request) (rt : Runtime.t) :
  queue (issue r rt) = queue rt ++ [Requests.handler MODULE_NAME r (counter rt)] /\
  counter (issue r rt) = Requests.next r (counter rt) /\
  calls_of (issue r rt) = calls_of rt /\
  writes_of (issue r rt)
  = writes_of rt ++ Requests.written MODULE_NAME r (counter rt).
Proof.
  destruct r; cbn [Requests.issue]; run_methods rt; read_effects;
    unfold Requests.next, Requests.written, Requests.handler, Requests.token;
    cbn [Requests.command app]; repeat split; reflexivity.
Qed.

(** Lines that are not its marker leave the [waitSync] closure at the
    front as it is. *)
Lemma deliver_wait (lines : list string) :
  forall (rt : Runtime.t) (r : regex) (cb : Callback) (q : list InputHandler),
    queue rt = WaitSyncHandler r cb :: q ->
    forallb (fun l => negb (test r l)) lines = true ->
    queue (deliver lines rt) = WaitSyncHandler r cb :: q /\
    calls_of (deliver lines rt) = calls_of rt.
Proof.
  induction lines as [|l lines IH]; intros rt r cb q Hq Hl; [auto|].
  cbn [forallb] in Hl. apply andb_true_iff in Hl as [Hl Hls].
  apply negb_true_iff in Hl.
  eapply onStdout_front in Hq as [Q C];
    [ | cbn [Runtime.handle]; rewrite Hl; reflexivity ].
  assert (Q' : queue (onStdout l rt) = WaitSyncHandler r cb :: q)
    by (rewrite Q; destruct rt; reflexivity).
  destruct (IH _ _ _ _ Q' Hls) as [Q'' C''].
  change (deliver (l :: lines) rt) with (deliver lines (onStdout l rt)).
  rewrite Q'', C'', C. destruct rt; auto.
Qed.

Lemma onStdout_wait_marker (data : string) (rt : Runtime.t) (r : regex)
  (id : nat) (q : list InputHandler) :
  queue rt = WaitSyncHandler r (External id) :: q ->
  test r data = true ->
  queue (onStdout data rt) = q /\
  calls_of (onStdout data rt) = calls_of rt ++ [(id, None)].
Proof.
  intros Hq Ht.
  eapply onStdout_front in Hq as [Q C];
    [ | cbn [Runtime.handle Runtime.invoke]; rewrite Ht; reflexivity ].
  rewrite Q, C. destruct rt; cbn. read_effects. auto.
Qed.

(** One whole exchange, whatever the request. *)
Lemma deliver_answer (x : Requests.Exchange) (c : N) (rt : Runtime.t)
  (q : list InputHandler) :
  queue rt = Requests.handler MODULE_NAME (Requests.request x) c :: q ->
  forallb
    (fun l => negb (test (syncRegEx (Requests.token (Requests.request x) c)) l))
    (Requests.output x) = true ->
  let answer :=
    Requests.output x
    ++ [markerLine (Requests.prompts x) (Requests.token (Requests.request x) c)]
  in
  queue (deliver answer rt) = q /\
  calls_of (deliver answer rt) = calls_of rt ++ [Requests.outcome x].
Proof.
  intros Hq Hl answer. subst answer.
  assert (T : test (syncRegEx (Requests.token (Requests.request x) c))
                (markerLine (Requests.prompts x)
                   (Requests.token (Requests.request x) c)) = true)
    by (apply syncRegEx_test; eauto).
  unfold Requests.outcome.
  destruct (Requests.request x) as [id | cmd id | e id | name id];
    cbn [Requests.handler] in Hq.
  - rewrite deliver_app. destruct (deliver_wait _ _ _ _ _ Hq Hl) as [Q C].
    destruct (onStdout_wait_marker _ _ _ _ _ Q T) as [Q' C'].
    cbn [Session.deliver fold_left]. fold deliver. now rewrite Q', C', C.
  - rewrite deliver_app. destruct (deliver_wait _ _ _ _ _ Hq Hl) as [Q C].
    destruct (onStdout_wait_marker _ _ _ _ _ Q T) as [Q' C'].
    cbn [Session.deliver fold_left]. fold deliver. now rewrite Q', C', C.
  - apply (deliver_exchange MODULE_NAME _ _ _ _ _ _ Hq Hl).
  - rewrite deliver_app.
    destruct (deliver_which MODULE_NAME _ [] _ _ _ _ _ Hq Hl) as [Q C].
    cbn [app] in Q.
    destruct (onStdout_which_marker MODULE_NAME _ _ _ _ _ _ _ Q T) as [Q' C'].
    cbn [Session.deliver fold_left]. fold deliver. now rewrite Q', C', C.
Qed.

Lemma issueAll_observed (xs : list Requests.Exchange) :
  forall rt,
    queue (issueAll xs rt)
    = queue rt ++ Requests.pending MODULE_NAME (counter rt) xs /\
    counter (issueAll xs rt) = Requests.counterAfter (counter rt) xs /\
    calls_of (issueAll xs rt) = calls_of rt /\
    writes_of (issueAll xs rt)
    = writes_of rt ++ Requests.writtenAll MODULE_NAME (counter rt) xs.
Proof.
  induction xs as [|x xs IH]; intros rt;
    cbn [Requests.issueAll Requests.pending Requests.counterAfter
         Requests.writtenAll].
  - now rewrite !app_nil_r.
  - destruct (IH (issue (Requests.request x) rt)) as (Q & N & C & W).
    destruct (issue_observed (Requests.request x) rt) as (Q1 & N1 & C1 & W1).
    rewrite Q, N, C, W, Q1, N1, C1, W1, <- !app_assoc. auto.
Qed.

Lemma deliver_answers (xs : list Requests.Exchange) :
  forall (c : N) (rt : Runtime.t) (rest : list InputHandler),
    queue rt = Requests.pending MODULE_NAME c xs ++ rest ->
    Requests.delimited MODULE_NAME c xs = true ->
    queue (deliver (Requests.responses MODULE_NAME c xs) rt) = rest /\
    calls_of (deliver (Requests.responses MODULE_NAME c xs) rt)
    = calls_of rt ++ map Requests.outcome xs.
Proof.
  induction xs as [|x xs IH]; intros c rt rest Hq Hd;
    cbn [Requests.pending Requests.responses Requests.delimited map] in *.
  - rewrite app_nil_r. auto.
  - apply andb_true_iff in Hd as [Hl Hd].
    match goal with
    | |- context [deliver (?o ++ ?m :: ?r) rt] =>
        change (o ++ m :: r) with (o ++ [m] ++ r)
    end.
    rewrite app_assoc, deliver_app.
    destruct (deliver_answer x c rt _ Hq Hl) as [Q C].
    destruct (IH _ _ _ Q Hd) as [Q' C'].
    rewrite Q', C', C, <- app_assoc. auto.
Qed.

Lemma pending_requests_app (xs ys : list Requests.Exchange) :
  forall c,
    Requests.pending MODULE_NAME c (xs ++ ys)
    = Requests.pending MODULE_NAME c xs
      ++ Requests.pending MODULE_NAME (Requests.counterAfter c xs) ys.
Proof.
  induction xs as [|x xs IH]; intros c; [reflexivity|].
  cbn [app Requests.pending Requests.counterAfter]. now rewrite IH.
Qed.

(** X1.  Requests of any kind ([waitSync], [waitSend], [evaluate],
    [isFunction] for names free of pattern syntax characters) are made on
    an idle session, none waiting for a callback: first those of [xs],
    then those of [ys].  Once the child has answered those of [xs] in
    order, each with its output and then its marker line, the callbacks of
    [xs] have been called in the order of the requests - with no argument
    for a wait, the joined content for an evaluation, the last descriptor
    line or undefined for a function query - and the handlers of [ys] wait
    in the order of the requests. *)
Theorem requests_resolve_in_order
  (rt : Runtime.t) (xs ys : list Requests.Exchange) :
  forallb (fun x => Requests.literal (Requests.request x)) (xs ++ ys) = true ->
  queue rt = [] ->
  Requests.delimited MODULE_NAME (counter rt) xs = true ->
  let rt' :=
    deliver (Requests.responses MODULE_NAME (counter rt) xs)
      (issueAll (xs ++ ys) rt) in
  calls_of rt' = calls_of rt ++ map Requests.outcome xs /\
  queue rt'
  = Requests.pending MODULE_NAME (Requests.counterAfter (counter rt) xs) ys.
Proof using MODULE_NAME_literal.
  intros _ Hq Hd rt'.
  destruct (issueAll_observed (xs ++ ys) rt) as (Q & _ & C & _).
  rewrite Hq, pending_requests_app in Q. cbn [app] in Q.
  destruct (deliver_answers xs _ _ _ Q Hd) as [Q' C'].
  subst rt'. rewrite Q', C', C. auto.
Qed.


End AnyRequests.

(** ** A line and the handler at the front *)

Section Front.

Variable MODULE_NAME : string.

Local Abbreviation queue := Runtime._inputHandler.
Local Abbreviation onStdout := (Runtime.onStdout MODULE_NAME).
Local Abbreviation deliver := (Session.deliver MODULE_NAME).

Lemma handle_marker (h : InputHandler) (data : string) (rt : Runtime.t) :
  test (Handler.marker h) data = true ->
  Runtime.handle MODULE_NAME h data rt
  = (true, h,
     Runtime.invoke MODULE_NAME (Handler.callback h) (Handler.argument h) rt).
Proof. destruct h; cbn; intros ->; reflexivity. Qed.

Lemma handle_content (h : InputHandler) (data : string) (rt : Runtime.t) :
  test (Handler.marker h) data = false ->
  exists h',
    Runtime.handle MODULE_NAME h data rt = (false, h', rt) /\
    Handler.marker h' = Handler.marker h /\
    Handler.callback h' = Handler.callback h.
Proof. destruct h; cbn; intros ->; eexists; repeat split. Qed.

(** The marker of the handler at the front: the handler is taken off, its
    callback is called, and the line goes the way of an unhandled one. *)
Lemma onStdout_marker_front (data : string) (rt : Runtime.t)
  (h : InputHandler) (q : list InputHandler) :
  queue rt = h :: q ->
  test (Handler.marker h) data = true ->
  onStdout data rt
  = Runtime.unhandled MODULE_NAME data
      (Runtime.invoke MODULE_NAME (Handler.callback h) (Handler.argument h)
         (Runtime.setInputHandler q rt)).
Proof.
  intros Hq Ht. unfold Runtime.onStdout.
  now rewrite Hq, (handle_marker _ _ _ Ht).
Qed.

(** Any other line: the handler stays at the front, and the line is added
    to the buffer; nothing else changes. *)
Lemma onStdout_content_front (data : string) (rt : Runtime.t)
  (h : InputHandler) (q : list InputHandler) :
  queue rt = h :: q ->
  test (Handler.marker h) data = false ->
  exists h',
    onStdout data rt
    = Runtime.setStdoutBuffer
        (Some (Runtime.appendTo (Runtime._stdoutBuffer rt) data))
        (Runtime.setStdoutHandled true (Runtime.setInputHandler (h' :: q) rt)) /\
    Handler.marker h' = Handler.marker h /\
    Handler.callback h' = Handler.callback h.
Proof.
  intros Hq Ht. unfold Runtime.onStdout. rewrite Hq.
  destruct (handle_content h data (Runtime.setInputHandler q rt) Ht)
    as (h' & -> & M & C).
  exists h'. cbn. auto.
Qed.

Lemma deliver_content_front (lines : list string) :
  forall (rt : Runtime.t) (h : InputHandler) (q : list InputHandler),
    queue rt = h :: q ->
    forallb (fun l => negb (test (Handler.marker h) l)) lines = true ->
    exists h',
      deliver lines rt
      = Runtime.setStdoutBuffer (Logs.glued (Runtime._stdoutBuffer rt) lines)
          (Runtime.setStdoutHandled
             (Runtime._stdoutHandled rt || negb (Nat.eqb (length lines) 0))
             (Runtime.setInputHandler (h' :: q) rt)) /\
      Handler.marker h' = Handler.marker h /\
      Handler.callback h' = Handler.callback h.
Proof.
  induction lines as [|l lines IH]; intros rt h q Hq Hl.
  - exists h. cbn. rewrite orb_false_r. destruct rt; cbn in *; subst; auto.
  - cbn [forallb] in Hl. apply andb_true_iff in Hl as [Hl Hls].
    apply negb_true_iff in Hl.
    destruct (onStdout_content_front l rt h q Hq Hl) as (h1 & E & M & C).
    change (deliver (l :: lines) rt) with (deliver lines (onStdout l rt)).
    rewrite E. rewrite <- M in Hls.
    destruct (IH (Runtime.setStdoutBuffer
                    (Some (Runtime.appendTo (Runtime._stdoutBuffer rt) l))
                    (Runtime.setStdoutHandled true
                       (Runtime.setInputHandler (h1 :: q) rt)))
                h1 q eq_refl Hls) as (h2 & E2 & M2 & C2).
    exists h2. rewrite E2. split; [|split; congruence].
    cbn. rewrite orb_true_r. destruct rt; reflexivity.
Qed.

End Front.

(** ** Lines that begin like a marker, and the buffer *)

Lemma matches_Star_Chr (c : ascii) (x : string) :
  matches (Star (Chr c)) x <-> exists j, x = JS.repeat (String c "") j.
Proof.
  split.
  - intros H. remember (Star (Chr c)) as r eqn:E.
    induction H; try discriminate.
    + now exists 0.
    + injection E as ->. destruct (IHmatches2 eq_refl) as (j & ->).
      inversion H as [ | p a Hp | | | | | ]; subst.
      apply Ascii.eqb_eq in Hp as <-. now exists (S j).
  - intros (j & ->). apply matches_Star_repeat. constructor.
    apply Ascii.eqb_refl.
Qed.

Lemma logged_app (es es' : list Effect) :
  Logs.logged (es ++ es') = Logs.logged es ++ Logs.logged es'.
Proof. apply flat_map_app. Qed.

Lemma printed_app (es es' : list Effect) :
  Logs.printed (es ++ es') = Logs.printed es ++ Logs.printed es'.
Proof. apply flat_map_app. Qed.

(** Reading the logs of a state built by appending. *)
Ltac read_logs :=
  rewrite ?logged_app, ?printed_app;
  cbn [Logs.logged Logs.printed flat_map app];
  rewrite ?app_nil_r, <- ?app_assoc.

Section Buffer.

Variable MODULE_NAME : string.
Hypothesis MODULE_NAME_literal : isLiteral MODULE_NAME = true.

Local Abbreviation queue := Runtime._inputHandler.
Local Abbreviation SYNC_REGEX := (Runtime.SYNC_REGEX MODULE_NAME).
Local Abbreviation onStdout := (Runtime.onStdout MODULE_NAME).
Local Abbreviation deliver := (Session.deliver MODULE_NAME).
Local Abbreviation unhandled := (Runtime.unhandled MODULE_NAME).
Local Abbreviation logged_of := (fun rt => Logs.logged (Runtime.effects rt)).
Local Abbreviation warnings_of :=
  (fun rt => Session.warnings (Runtime.effects rt)).

Lemma SYNC_REGEX_test (line : string) :
  testPrefix SYNC_REGEX line = true <->
  exists k j rest,
    line = (JS.repeat Runtime.PROMPT k ++ JS.repeat "s" j
            ++ Runtime.SYNC MODULE_NAME ++ rest)%string.
Proof.
  rewrite testPrefix_matches. unfold Runtime.SYNC_REGEX. split.
  - intros (a & b & -> & H).
    apply matches_Cat_inv in H as (s1 & s2 & -> & H1 & H2).
    apply matches_Cat_inv in H2 as (s3 & s4 & -> & H3 & H4).
    apply matches_Star_Lit in H1 as (k & ->).
    apply matches_Star_Chr in H3 as (j & ->).
    apply matches_Lit in H4 as ->.
    exists k, j, b. now rewrite !append_assoc.
  - intros (k & j & rest & ->).
    exists (JS.repeat Runtime.PROMPT k ++ JS.repeat "s" j
            ++ Runtime.SYNC MODULE_NAME)%string, rest.
    split; [now rewrite !append_assoc|].
    constructor; [apply matches_Star_Lit; eauto|].
    constructor; [apply matches_Star_Chr; eauto | now apply matches_Lit].
Qed.

Lemma markerLine_SYNC_REGEX (k : nat) (id : N) :
  testPrefix SYNC_REGEX (Session.markerLine MODULE_NAME k id) = true.
Proof.
  apply SYNC_REGEX_test. exists k, 0, (":" ++ JS.ofNumber id)%string.
  unfold Session.markerLine, Runtime.syncString. reflexivity.
Qed.

(** X3.  The pattern of line 17 accepts exactly the lines that begin with
    any number of prompts, then any number of letters s, then the
    namespace, whatever follows.  So it accepts every marker line of every
    token, and it does not accept a line with a blank between the prompts
    and the namespace. *)
Theorem SYNC_REGEX_accepts :
  (forall line,
      testPrefix SYNC_REGEX line = true <->
      exists k j rest,
        line = (JS.repeat Runtime.PROMPT k ++ JS.repeat "s" j
                ++ Runtime.SYNC MODULE_NAME ++ rest)%string) /\
  (forall k id,
      testPrefix SYNC_REGEX (Session.markerLine MODULE_NAME k id) = true) /\
  (forall k rest,
      testPrefix SYNC_REGEX
        (JS.repeat Runtime.PROMPT k ++ " " ++ Runtime.SYNC MODULE_NAME ++ rest)%string
      = false).
Proof using MODULE_NAME_literal.
  split; [exact SYNC_REGEX_test|]. split; [exact markerLine_SYNC_REGEX|].
  intros k rest. apply not_true_iff_false. intros H.
  apply SYNC_REGEX_test in H as (k' & j & rest' & E).
  assert (L : k' <= k).
  { symmetry in E. apply (repeat_most _ _ _ _ _ E).
    intros (z & Z). discriminate Z. }
  assert (L' : k <= k').
  { apply (repeat_most _ _ _ _ _ E).
    intros (z & Z). destruct j; discriminate Z. }
  assert (k' = k) as -> by lia.
  apply append_inv_head in E. destruct j; discriminate E.
Qed.

(** What [onStdout] does with a line it has no handler for, or with the
    marker that ends a handler. *)
Lemma unhandled_observed_logs (data : string) (rt : Runtime.t) :
  let flush := Runtime._stdoutHandled rt || testPrefix SYNC_REGEX data in
  logged_of (unhandled data rt)
  = logged_of rt ++ (if flush then [Runtime._stdoutBuffer rt] else []) /\
  warnings_of (unhandled data rt)
  = warnings_of rt ++ (if flush then [] else [Some data]) /\
  Runtime._stdoutBuffer (unhandled data rt)
  = (if flush then Some ""%string else Runtime._stdoutBuffer rt) /\
  Runtime._stdoutHandled (unhandled data rt) = false /\
  queue (unhandled data rt) = queue rt /\
  Session.calls (Runtime.effects (unhandled data rt))
  = Session.calls (Runtime.effects rt) /\
  Session.writes (Runtime.effects (unhandled data rt))
  = Session.writes (Runtime.effects rt) /\
  Session.tokens (Runtime.effects (unhandled data rt))
  = Session.tokens (Runtime.effects rt).
Proof.
  intros flush. subst flush. unfold Runtime.unhandled.
  destruct (Runtime._stdoutHandled rt) eqn:Hh;
    destruct (testPrefix SYNC_REGEX data); cbn [orb];
    run_methods rt; cbn in Hh; subst; read_effects; read_logs;
    repeat split; reflexivity.
Qed.

(** X4.  A handler with a caller's callback is at the front, and the
    child prints some lines that are not its marker and then its marker
    line.  Then the lines have been added to the buffer one after the
    other with nothing in between, the buffer has been passed to the log
    once, in one piece (as it was, even undefined, when there were no
    lines), and it is empty again; no line and no marker has been passed
    on as a warning, and the handler has left the queue. *)
Theorem exchange_flushes_buffer
  (rt : Runtime.t) (h : InputHandler) (q : list InputHandler)
  (token : N) (id k : nat) (lines : list string) :
  queue rt = h :: q ->
  Handler.marker h = Runtime.syncRegEx MODULE_NAME token ->
  Handler.callback h = External id ->
  forallb (fun l => negb (test (Runtime.syncRegEx MODULE_NAME token) l)) lines
  = true ->
  let rt' :=
    deliver (lines ++ [Session.markerLine MODULE_NAME k token]) rt in
  logged_of rt'
  = logged_of rt ++ [Logs.glued (Runtime._stdoutBuffer rt) lines] /\
  warnings_of rt' = warnings_of rt /\
  Runtime._stdoutBuffer rt' = Some ""%string /\
  Runtime._stdoutHandled rt' = false /\
  queue rt' = q.
Proof using MODULE_NAME_literal.
  intros Hq Hm Hc Hl rt'. subst rt'. rewrite deliver_app.
  rewrite <- Hm in Hl.
  destruct (deliver_content_front MODULE_NAME lines rt h q Hq Hl)
    as (h' & E & M & C).
  cbn [Session.deliver fold_left]. fold deliver. rewrite E.
  erewrite onStdout_marker_front;
    [ | reflexivity
      | rewrite M, Hm; apply syncRegEx_test; eauto ].
  rewrite C, Hc. cbn [Runtime.invoke].
  match goal with
  | |- context [Runtime.unhandled _ ?d ?s] =>
      destruct (unhandled_observed_logs d s) as (L & W & B & H & Q & _)
  end.
  rewrite L, W, B, H, Q, markerLine_SYNC_REGEX, orb_true_r.
  destruct rt; cbn. read_logs. read_effects. auto.
Qed.

(** X5.  On a session with an empty queue whose last line was not
    handled, the lines read call no callback and write nothing; of them,
    exactly those that do not begin like a marker are passed on as
    warnings, unchanged and in order; the queue stays empty and the flag
    stays clear. *)
Theorem idle_session_warns (rt : Runtime.t) (lines : list string) :
  queue rt = [] ->
  Runtime._stdoutHandled rt = false ->
  let rt' := deliver lines rt in
  warnings_of rt'
  = warnings_of rt
    ++ map Some (filter (fun l => negb (testPrefix SYNC_REGEX l)) lines) /\
  Session.calls (Runtime.effects rt') = Session.calls (Runtime.effects rt) /\
  Session.writes (Runtime.effects rt') = Session.writes (Runtime.effects rt) /\
  queue rt' = [] /\
  Runtime._stdoutHandled rt' = false.
Proof using MODULE_NAME_literal.
  intros Hq Hh rt'. subst rt'. revert rt Hq Hh.
  induction lines as [|l lines IH]; intros rt Hq Hh.
  - cbn. rewrite app_nil_r. auto.
  - change (deliver (l :: lines) rt) with (deliver lines (onStdout l rt)).
    assert (E : onStdout l rt = unhandled l rt)
      by (unfold Runtime.onStdout; now rewrite Hq).
    destruct (unhandled_observed_logs l rt) as (_ & W & _ & H & Q & C & Wr & _).
    rewrite <- E in *. rewrite Hq in Q. rewrite Hh in W. cbn [orb] in W.
    destruct (IH _ Q H) as (W' & C' & Wr' & Q' & H').
    rewrite W', C', Wr', Q', H', W, C, Wr. cbn [filter].
    destruct (testPrefix SYNC_REGEX l); cbn [negb map];
      rewrite <- ?app_assoc; auto.
Qed.

End Buffer.

(** ** [Expression.evaluate] outside the console *)

(** Reading a field through the assignments to other fields. *)
Ltac project_state :=
  cbn [Runtime._commandNumber Runtime._processName Runtime._inputHandler
       Runtime._eventHandler Runtime._log Runtime._stdoutBuffer
       Runtime._stdoutHandled Runtime.effects Runtime.perform
       Runtime.setCommandNumber Runtime.setInputHandler
       Runtime.setEventHandler Runtime.setStdoutBuffer
       Runtime.setStdoutHandled Runtime.setLog].

Section ExpressionEvaluate.

Variable MODULE_NAME : string.
Hypothesis MODULE_NAME_literal : isLiteral MODULE_NAME = true.

Local Abbreviation queue := Runtime._inputHandler.
Local Abbreviation counter := Runtime._commandNumber.
Local Abbreviation calls_of := (fun rt => Session.calls (Runtime.effects rt)).
Local Abbreviation writes_of := (fun rt => Session.writes (Runtime.effects rt)).
Local Abbreviation syncRegEx := (Runtime.syncRegEx MODULE_NAME).
Local Abbreviation syncString := (Runtime.syncString MODULE_NAME).
Local Abbreviation markerLine := (Session.markerLine MODULE_NAME).
Local Abbreviation onStdout := (Runtime.onStdout MODULE_NAME).
Local Abbreviation deliver := (Session.deliver MODULE_NAME).

Lemma isFunction_sent (e : string) (cb : Callback) (rt : Runtime.t) :
  counter (Expression.isFunction MODULE_NAME e cb rt) = (counter rt + 2)%N /\
  writes_of (Expression.isFunction MODULE_NAME e cb rt)
  = writes_of rt
    ++ [("which " ++ e ++ LF)%string;
        (Runtime.echo (syncString (counter rt + 1)) ++ LF)%string].
Proof. run_methods rt; read_effects; (split; [lia | reflexivity]). Qed.

Lemma unhandled_counter (data : string) (rt : Runtime.t) :
  counter (Runtime.unhandled MODULE_NAME data rt) = counter rt.
Proof.
  unfold Runtime.unhandled.
  destruct (Runtime._stdoutHandled rt
            || testPrefix (Runtime.SYNC_REGEX MODULE_NAME) data);
    destruct rt as [? ? ? ? [|] ? ? ?]; reflexivity.
Qed.

(** A whole exchange with a handler that has a caller's callback writes
    nothing and leaves the counter alone. *)
Lemma deliver_exchange_frame (lines : list string) (data : string)
  (rt : Runtime.t) (h : InputHandler) (q : list InputHandler) (id : nat) :
  queue rt = h :: q ->
  Handler.callback h = External id ->
  forallb (fun l => negb (test (Handler.marker h) l)) lines = true ->
  test (Handler.marker h) data = true ->
  writes_of (deliver (lines ++ [data]) rt) = writes_of rt /\
  counter (deliver (lines ++ [data]) rt) = counter rt.
Proof.
  intros Hq Hc Hl Ht. rewrite deliver_app.
  destruct (deliver_content_front MODULE_NAME lines rt h q Hq Hl)
    as (h' & E & M & C).
  cbn [Session.deliver fold_left]. fold deliver. rewrite E.
  erewrite onStdout_marker_front; [ | reflexivity | now rewrite M ].
  rewrite C, Hc. cbn [Runtime.invoke].
  match goal with
  | |- context [Runtime.unhandled _ ?d ?s] =>
      destruct (unhandled_observed_logs MODULE_NAME d s)
        as (_ & _ & _ & _ & _ & _ & W & _);
      rewrite W, unhandled_counter
  end.
  split; destruct rt; cbn; read_effects; reflexivity.
Qed.

(** The state once the child has answered the [which] query of
    [Expression.evaluate]: the callback of [isFunction] has run. *)
Lemma which_answered (rt : Runtime.t) (name : string) (id k : nat)
  (lines : list string) :
  queue rt = [] ->
  forallb (fun l => negb (test (syncRegEx (counter rt + 1)) l)) lines = true ->
  let found :=
    option_map Runtime.content
      (Session.lastMatch (Expression.isFuncRegex name) lines) in
  let rt' :=
    deliver (lines ++ [markerLine k (counter rt + 1)])
      (Expression.evaluate MODULE_NAME name false (External id) rt) in
  match found with
  | Some descriptor =>
      calls_of rt' = calls_of rt ++ [(id, Some descriptor)] /\
      queue rt' = [] /\
      writes_of rt'
      = writes_of rt
        ++ [("which " ++ name ++ LF)%string;
            (Runtime.echo (syncString (counter rt + 1)) ++ LF)%string] /\
      counter rt' = (counter rt + 2)%N
  | None =>
      calls_of rt' = calls_of rt /\
      queue rt'
      = [EvaluateHandler (syncRegEx (counter rt + 3)) "" (External id)] /\
      writes_of rt'
      = writes_of rt
        ++ [("which " ++ name ++ LF)%string;
            (Runtime.echo (syncString (counter rt + 1)) ++ LF)%string;
            (name ++ LF)%string;
            (Runtime.echo (syncString (counter rt + 3)) ++ LF)%string] /\
      counter rt' = (counter rt + 4)%N
  end.
Proof.
  intros Hq Hl found rt'. subst rt'. cbn [Expression.evaluate].
  set (cb := IfNotFunction name (External id)).
  set (rt1 := Expression.isFunction MODULE_NAME name cb rt).
  destruct (isFunction_observed MODULE_NAME name cb rt) as (Q1 & C1).
  destruct (isFunction_sent name cb rt) as (N1 & W1).
  fold rt1 in Q1, C1, N1, W1. clearbody rt1. rewrite Hq in Q1. cbn [app] in Q1.
  rewrite deliver_app.
  destruct (deliver_which MODULE_NAME lines [] _ _ _ _ _ Q1 Hl) as [Q2 _].
  cbn [app] in Q2.
  destruct (deliver_content_front MODULE_NAME lines rt1 _ _ Q1 Hl)
    as (h' & E & _ & _).
  rewrite E in Q2. cbn in Q2. injection Q2 as ->.
  cbn [Session.deliver fold_left]. fold deliver. rewrite E.
  erewrite onStdout_marker_front;
    [ | reflexivity | apply syncRegEx_test; eauto ].
  cbn [Handler.callback Handler.argument]. fold found. subst cb.
  match goal with
  | |- context [Runtime.unhandled _ ?d ?s] =>
      destruct (unhandled_observed_logs MODULE_NAME d s)
        as (_ & _ & _ & _ & Q & C & W & _);
      pose proof (unhandled_counter d s) as N
  end.
  destruct found as [descriptor|]; cbn [Runtime.invoke] in *.
  - rewrite Q, C, W, N. project_state. read_effects. rewrite C1, W1, N1.
    rewrite <- ?app_assoc. auto.
  - match type of Q with
    | context [Runtime.evaluate _ ?e ?c ?s] =>
        destruct (evaluate_observed MODULE_NAME e c s) as (Q' & C' & W');
        pose proof (evaluate_counter MODULE_NAME e c s) as N'
    end.
    rewrite Q, C, W, N, Q', C', W', N'. project_state. rewrite C1, W1, N1.
    rewrite <- ?app_assoc. cbn [app].
    replace (counter rt + 2 + 1)%N with (counter rt + 3)%N by lia.
    replace (counter rt + 2 + 2)%N with (counter rt + 4)%N by lia. auto.
Qed.

(** X6.  [Expression.evaluate] outside the console, on an idle session
    (nothing in the queue), for a name free of pattern syntax characters
    that is a function: once the child has answered the [which] query -
    lines that are not the marker of the query, the last one that the
    pattern accepts being [line], then the marker line - the callback has
    been called once, with the content of [line], nothing waits in the
    queue, and only the query and its marker were written: the name
    itself was never sent for evaluation. *)
Theorem expression_evaluate_reports_function
  (rt : Runtime.t) (name : string) (id k : nat) (lines : list string)
  (line : string) :
  isLiteral name = true ->
  queue rt = [] ->
  forallb (fun l => negb (test (syncRegEx (counter rt + 1)) l)) lines = true ->
  Session.lastMatch (Expression.isFuncRegex name) lines = Some line ->
  let rt' :=
    deliver (lines ++ [markerLine k (counter rt + 1)])
      (Expression.evaluate MODULE_NAME name false (External id) rt) in
  calls_of rt' = calls_of rt ++ [(id, Some (Runtime.content line))] /\
  queue rt' = [] /\
  writes_of rt'
  = writes_of rt
    ++ [("which " ++ name ++ LF)%string;
        (Runtime.echo (syncString (counter rt + 1)) ++ LF)%string].
Proof using MODULE_NAME_literal.
  intros _ Hq Hl Hm rt'.
  pose proof (which_answered rt name id k lines Hq Hl) as H.
  cbn zeta in H. rewrite Hm in H. cbn [option_map] in H.
  destruct H as (C & Q & W & _). auto.
Qed.

(** X7.  [Expression.evaluate] outside the console, on an idle session
    (nothing in the queue), for a name free of pattern syntax characters
    that is not a function: once the child has answered the [which] query
    with its marker line behind lines that are not that marker and none of
    which the pattern accepts, nothing has been called yet and the name
    has been sent for evaluation, with a marker of its own, behind the
    query; once the child has answered that too, with lines that are not
    the second marker and then the second marker line, the callback has
    been called once, with the joined content of the second answer. *)
Theorem expression_evaluate_falls_back
  (rt : Runtime.t) (name : string) (id k k' : nat)
  (lines lines' : list string) :
  isLiteral name = true ->
  queue rt = [] ->
  forallb (fun l => negb (test (syncRegEx (counter rt + 1)) l)) lines = true ->
  Session.lastMatch (Expression.isFuncRegex name) lines = None ->
  forallb (fun l => negb (test (syncRegEx (counter rt + 3)) l)) lines' = true ->
  let asked :=
    deliver (lines ++ [markerLine k (counter rt + 1)])
      (Expression.evaluate MODULE_NAME name false (External id) rt) in
  let rt' := deliver (lines' ++ [markerLine k' (counter rt + 3)]) asked in
  calls_of asked = calls_of rt /\
  writes_of asked
  = writes_of rt
    ++ [("which " ++ name ++ LF)%string;
        (Runtime.echo (syncString (counter rt + 1)) ++ LF)%string;
        (name ++ LF)%string;
        (Runtime.echo (syncString (counter rt + 3)) ++ LF)%string] /\
  calls_of rt'
  = calls_of rt
    ++ [(id, Some (Session.joined (map Runtime.content lines')))] /\
  queue rt' = [] /\
  writes_of rt' = writes_of asked.
Proof using MODULE_NAME_literal.
  intros _ Hq Hl Hm Hl' asked rt'.
  pose proof (which_answered rt name id k lines Hq Hl) as H.
  cbn zeta in H. rewrite Hm in H. cbn [option_map] in H. fold asked in H.
  destruct H as (C & Q & W & _).
  destruct (deliver_exchange MODULE_NAME lines' k' _ _ _ _ Q Hl') as [Q' C'].
  destruct (deliver_exchange_frame lines' (markerLine k' (counter rt + 3))
              asked _ _ id Q eq_refl Hl') as [W' _].
  { apply syncRegEx_test. eauto. }
  subst rt'. rewrite C', Q', W', C. auto.
Qed.

End ExpressionEvaluate.

(** ** The pattern that [new RegExp] builds *)

(** For the pattern of a name free of syntax characters the method for any
    expression is the one for such names; when [new RegExp] throws,
    nothing is queued or written. *)
Lemma Compiled_isFunction_literal
  (MODULE_NAME e : string) (cb : Callback) (rt : Runtime.t) :
  Compiled.isFunction MODULE_NAME (Some (Expression.isFuncRegex e)) e cb rt
  = Expression.isFunction MODULE_NAME e cb rt.
Proof. reflexivity. Qed.

Lemma Compiled_evaluate_literal
  (MODULE_NAME e : string) (isConsole : bool) (cb : Callback)
  (rt : Runtime.t) :
  Compiled.evaluate MODULE_NAME (Some (Expression.isFuncRegex e)) e isConsole
    cb rt
  = Expression.evaluate MODULE_NAME e isConsole cb rt.
Proof. reflexivity. Qed.

Lemma Compiled_isFunction_throws
  (MODULE_NAME e : string) (cb : Callback) (rt : Runtime.t) :
  Compiled.isFunction MODULE_NAME None e cb rt = rt.
Proof. reflexivity. Qed.

(** An 'error' event of the child with no listener on the engine:
    [emit] throws, and nothing is emitted. *)
Lemma onError_unlistened
  (msg : string) (connected killed : bool) (rt : Runtime.t) :
  snd (Runtime.onError msg connected killed false rt) = true /\
  Session.signals
    (Runtime.effects (fst (Runtime.onError msg connected killed false rt)))
  = Session.signals (Runtime.effects rt).
Proof.
  unfold Runtime.onError. cbn [fst snd]. split; [reflexivity|].
  run_methods rt; read_effects; reflexivity.
Qed.

(** ** Properties kept by every step *)

Section Kept.

Variable MODULE_NAME : string.

(** A property of the counter, the log flag and the effects that [send]
    keeps, that a plain effect keeps, that a line on the console keeps
    when the log is on, and that [setLog] keeps for the flags allowed. *)
Variable I : Runtime.t -> Prop.
Variable allowed : bool -> bool.

Hypothesis I_frame :
  forall rt rt',
    Runtime._commandNumber rt' = Runtime._commandNumber rt ->
    Runtime._log rt' = Runtime._log rt ->
    Runtime.effects rt' = Runtime.effects rt ->
    I rt -> I rt'.
Hypothesis I_send : forall cmd rt, I rt -> I (Runtime.send cmd rt).
Hypothesis I_plain :
  forall e rt, Logs.plain e = true -> I rt -> I (Runtime.perform e rt).
Hypothesis I_console :
  forall v rt,
    Runtime._log rt = true -> I rt -> I (Runtime.perform (ConsoleLog v) rt).
Hypothesis I_setLog :
  forall log rt, allowed log = true -> I rt -> I (Runtime.setLog log rt).

Lemma debug_kept (str : option string) (rt : Runtime.t) :
  I rt -> I (Runtime.debug str rt).
Proof.
  intros H. unfold Runtime.debug. apply I_plain; [reflexivity|].
  destruct (Runtime._log rt) eqn:L; [apply I_console|]; assumption.
Qed.

Lemma warn_kept (str : option string) (rt : Runtime.t) :
  I rt -> I (Runtime.warn str rt).
Proof.
  intros H. unfold Runtime.warn. apply I_plain; [reflexivity|].
  destruct (Runtime._log rt) eqn:L; [apply I_console|]; assumption.
Qed.

Lemma setInputHandler_kept (q : list InputHandler) (rt : Runtime.t) :
  I rt -> I (Runtime.setInputHandler q rt).
Proof. apply I_frame; reflexivity. Qed.

Lemma sync_kept (rt : Runtime.t) :
  I rt -> I (snd (Runtime.sync MODULE_NAME rt)).
Proof.
  intros H. unfold Runtime.sync. cbn [snd].
  apply I_plain; [reflexivity|]. now apply I_send.
Qed.

Lemma waitSync_kept (cb : Callback) (rt : Runtime.t) :
  I rt -> I (Runtime.waitSync MODULE_NAME cb rt).
Proof.
  intros H. unfold Runtime.waitSync.
  pose proof (sync_kept rt H) as S.
  destruct (Runtime.sync MODULE_NAME rt) as [id rt']. cbn [snd] in S.
  now apply setInputHandler_kept.
Qed.

Lemma evaluate_kept (e : string) (cb : Callback) (rt : Runtime.t) :
  I rt -> I (Runtime.evaluate MODULE_NAME e cb rt).
Proof.
  intros H. unfold Runtime.evaluate.
  pose proof (sync_kept _ (I_send e rt H)) as S.
  destruct (Runtime.sync MODULE_NAME _) as [id rt']. cbn [snd] in S.
  now apply setInputHandler_kept.
Qed.

Lemma isFunction_kept
  (compiled : option regex) (e : string) (cb : Callback) (rt : Runtime.t) :
  I rt -> I (Compiled.isFunction MODULE_NAME compiled e cb rt).
Proof.
  intros H. unfold Compiled.isFunction.
  destruct compiled as [r|]; [|exact H].
  pose proof (sync_kept _ (I_send ("which " ++ e)%string rt H)) as S.
  destruct (Runtime.sync MODULE_NAME _) as [id rt']. cbn [snd] in S.
  unfold Runtime.addInputHandler. now apply setInputHandler_kept.
Qed.

Lemma invoke_kept (cb : Callback) :
  forall arg rt, I rt -> I (Runtime.invoke MODULE_NAME cb arg rt).
Proof.
  induction cb as [id | e cb IH]; intros arg rt H; cbn [Runtime.invoke].
  - now apply I_plain.
  - destruct arg; [now apply IH | now apply evaluate_kept].
Qed.

Lemma unhandled_kept (data : string) (rt : Runtime.t) :
  I rt -> I (Runtime.unhandled MODULE_NAME data rt).
Proof.
  intros H. unfold Runtime.unhandled.
  destruct (_ || _); [|now apply warn_kept].
  eapply I_frame; [ | | | apply (debug_kept (Runtime._stdoutBuffer rt) rt H) ];
    reflexivity.
Qed.

Lemma onStdout_kept (data : string) (rt : Runtime.t) :
  I rt -> I (Runtime.onStdout MODULE_NAME data rt).
Proof.
  intros H. unfold Runtime.onStdout.
  destruct (Runtime._inputHandler rt) as [|h q]; [now apply unhandled_kept|].
  pose proof (setInputHandler_kept q rt H) as H'.
  destruct (test (Handler.marker h) data) eqn:T.
  - rewrite (handle_marker MODULE_NAME _ _ _ T). cbn [negb].
    now apply unhandled_kept, invoke_kept.
  - destruct (handle_content MODULE_NAME h data
                (Runtime.setInputHandler q rt) T) as (h' & -> & _).
    cbn [negb]. eapply I_frame; [ | | | exact H' ]; reflexivity.
Qed.

Lemma some_kept (hs : list EventHandler) (data : string) :
  forall rt, I rt -> I (snd (Runtime.some hs data rt)).
Proof.
  induction hs as [|h hs IH]; intros rt H; cbn [Runtime.some]; [exact H|].
  assert (H' : I (Runtime.perform (Asked (handlerId h) data) rt))
    by now apply I_plain.
  destruct (consumes h data); [exact H' | now apply IH].
Qed.

Lemma onStderr_kept (data : string) (rt : Runtime.t) :
  I rt -> I (Runtime.onStderr data rt).
Proof.
  intros H. unfold Runtime.onStderr.
  pose proof (some_kept (Runtime._eventHandler rt) data rt H) as S.
  destruct (Runtime.some _ _ _) as [b rt']. now apply warn_kept.
Qed.

Lemma step_kept (op : Session.Op) (rt : Runtime.t) :
  Forall (fun log => allowed log = true)
    (match op with Session.CallSetLog log => [log] | _ => [] end) ->
  I rt -> I (Session.step MODULE_NAME op rt).
Proof.
  intros Ha H.
  destruct op as [cmd | | cb | cmd cb | e cb | e compiled cb
                 | e isConsole compiled cb | folder | folder fn | h | h | |
                 | log | | data | data | code
                 | msg connected killed listened];
    cbn [Session.step].
  - now apply I_send.
  - now apply sync_kept.
  - now apply waitSync_kept.
  - now apply waitSync_kept, I_send.
  - now apply evaluate_kept.
  - now apply isFunction_kept.
  - unfold Compiled.evaluate.
    destruct isConsole; [now apply evaluate_kept | now apply isFunction_kept].
  - now apply I_send.
  - now apply I_send, I_send.
  - now apply setInputHandler_kept.
  - eapply I_frame; [ | | | exact H ]; reflexivity.
  - now apply setInputHandler_kept.
  - eapply I_frame; [ | | | exact H ]; reflexivity.
  - apply I_setLog; [now apply Forall_inv in Ha | exact H].
  - now apply I_send, debug_kept.
  - now apply onStdout_kept.
  - now apply onStderr_kept.
  - now apply I_plain, debug_kept.
  - unfold Runtime.onError.
    destruct listened; cbn [fst]; [apply I_plain; [reflexivity|]|];
      now apply debug_kept.
Qed.

Lemma new_kept (processName sourceFolder : string) (log : bool) :
  allowed log = true ->
  I (Runtime.mk 0 processName [] [] false None false []) ->
  I (Runtime.new processName sourceFolder log).
Proof.
  intros Ha H. unfold Runtime.new, Runtime.addFolder.
  apply I_send.
  apply I_frame
    with (rt := Runtime.connect
                  (Runtime.setLog log
                     (Runtime.mk 0 processName [] [] false None false [])));
    try reflexivity.
  unfold Runtime.connect. apply I_plain; [reflexivity|].
  now apply debug_kept, I_setLog.
Qed.

Lemma run_kept (ops : list Session.Op) :
  forall rt,
    Forall (fun op =>
              Forall (fun log => allowed log = true)
                (match op with Session.CallSetLog log => [log] | _ => [] end))
      ops ->
    I rt -> I (Session.run MODULE_NAME ops rt).
Proof.
  induction ops as [|op ops IH]; intros rt Ha H; [exact H|].
  apply Forall_cons_iff in Ha as [Hop Ha].
  apply (IH (Session.step MODULE_NAME op rt) Ha), step_kept; assumption.
Qed.

End Kept.

Section Counted.

Variable MODULE_NAME : string.

Local Open Scope N_scope.


(** X9.  In a run of steps of [Session.Op] (calls of the methods of the
    two files with callbacks that do not call the engine themselves, and
    events of the child) on a session constructed with the log off, in
    which [setLog] is never called with true, nothing is passed to
    [console.log], and the log is still off. *)
Theorem log_off_prints_nothing
  (processName sourceFolder : string) (ops : list Session.Op) :
  forallb Logs.keepsLogOff ops = true ->
  let rt :=
    Session.run MODULE_NAME ops (Runtime.new processName sourceFolder false) in
  Logs.printed (Runtime.effects rt) = [] /\ Runtime.getLog rt = false.
Proof.
  intros Hops rt.
  assert (Q : Logs.quiet rt); [|destruct Q; auto].
  assert (F : forall rt rt',
             Runtime._commandNumber rt' = Runtime._commandNumber rt ->
             Runtime._log rt' = Runtime._log rt ->
             Runtime.effects rt' = Runtime.effects rt ->
             Logs.quiet rt -> Logs.quiet rt')
    by (unfold Logs.quiet; intros s s' _ -> ->; auto).
  assert (S : forall cmd rt, Logs.quiet rt -> Logs.quiet (Runtime.send cmd rt)).
  { intros cmd s [L P]. unfold Logs.quiet.
    destruct s as [? ? ? ? l ? ? ?]; cbn in L; subst l.
    cbn [Runtime.effects] in P.
    cbn [Runtime.send Runtime.debug Runtime.perform Runtime.setCommandNumber
         Runtime._log Runtime.effects].
    now rewrite !printed_app, P. }
  assert (E : forall e rt,
             Logs.plain e = true -> Logs.quiet rt ->
             Logs.quiet (Runtime.perform e rt)).
  { intros e s He [L P]. unfold Logs.quiet.
    destruct e; try discriminate He; destruct s;
      cbn [Runtime.perform Runtime._log Runtime.effects] in *;
      now rewrite printed_app, P. }
  assert (C : forall v rt,
             Runtime._log rt = true -> Logs.quiet rt ->
             Logs.quiet (Runtime.perform (ConsoleLog v) rt))
    by (intros v s L [L' _]; congruence).
  assert (G : forall log rt,
             negb log = true -> Logs.quiet rt ->
             Logs.quiet (Runtime.setLog log rt)).
  { intros [|] s Hb [L P]; [discriminate|]. destruct s; split; auto. }
  subst rt. apply run_kept with (allowed := negb); auto.
  - apply Forall_forall. intros op Hin.
    rewrite forallb_forall in Hops. specialize (Hops op Hin).
    destruct op; repeat constructor. exact Hops.
  - apply new_kept with (allowed := negb); auto. split; reflexivity.
Qed.

End Counted.

(** ** The queue behind the front *)

Section Order.

Variable MODULE_NAME : string.

Local Abbreviation queue := Runtime._inputHandler.
Local Abbreviation onStdout := (Runtime.onStdout MODULE_NAME).

Lemma invoke_queue (cb : Callback) :
  forall arg rt,
    exists added,
      queue (Runtime.invoke MODULE_NAME cb arg rt) = queue rt ++ added /\
      length added <= 1.
Proof.
  induction cb as [id | e cb IH]; intros arg rt; cbn [Runtime.invoke].
  - exists []. rewrite app_nil_r. destruct rt; auto.
  - destruct arg; [apply IH|].
    destruct (evaluate_observed MODULE_NAME e cb rt) as (Q & _).
    rewrite Q. eexists. split; [reflexivity | cbn; lia].
Qed.

(** X10.  A line read while a handler is at the front - one of the three
    closures of the engine, around a caller's callback that does not call
    the engine itself - leaves the handlers behind it as they are and in
    their order.  When the line is not the front handler's marker, that
    handler stays at the front, still waiting for the same marker with
    the same callback; when it is, the handler leaves, and the only
    handler that can have been put at the end of the queue is the one of
    the evaluation that [Expression.evaluate] falls back to. *)
Theorem line_keeps_queue_order
  (rt : Runtime.t) (data : string) (h : InputHandler)
  (q : list InputHandler) :
  queue rt = h :: q ->
  if test (Handler.marker h) data
  then exists added,
         queue (onStdout data rt) = q ++ added /\ length added <= 1
  else exists h',
         queue (onStdout data rt) = h' :: q /\
         Handler.marker h' = Handler.marker h /\
         Handler.callback h' = Handler.callback h.
Proof.
  intros Hq. destruct (test (Handler.marker h) data) eqn:T.
  - rewrite (onStdout_marker_front MODULE_NAME _ _ _ _ Hq T).
    destruct (unhandled_observed MODULE_NAME data
                (Runtime.invoke MODULE_NAME (Handler.callback h)
                   (Handler.argument h) (Runtime.setInputHandler q rt)))
      as [Q _].
    rewrite Q.
    destruct (invoke_queue (Handler.callback h) (Handler.argument h)
                (Runtime.setInputHandler q rt)) as (added & E & L).
    exists added. rewrite E. destruct rt; auto.
  - destruct (onStdout_content_front MODULE_NAME _ _ _ _ Hq T)
      as (h' & E & M & C).
    exists h'. rewrite E. destruct rt; auto.
Qed.

End Order.

(** ** The lines taken for the descriptor of a function *)

Lemma every_app (p : ascii -> bool) (a b : string) :
  Chars.every p (a ++ b)%string = Chars.every p a && Chars.every p b.
Proof.
  induction a as [|c a IH]; cbn [append Chars.every]; [reflexivity|].
  now rewrite IH, andb_assoc.
Qed.

Lemma matches_Star_Class (p : ascii -> bool) (x : string) :
  matches (Star (Class p)) x <-> Chars.every p x = true.
Proof.
  split.
  - intros H. remember (Star (Class p)) as r eqn:E.
    induction H; try discriminate; [reflexivity|].
    injection E as ->. rewrite every_app, (IHmatches2 eq_refl), andb_true_r.
    inversion H as [ | p' a Hp | | | | | ]; subst. cbn. now rewrite Hp.
  - induction x as [|c x IH]; cbn [Chars.every]; intros H; [constructor|].
    apply andb_true_iff in H as [Hc Hx].
    change (String c x) with (String c "" ++ x)%string.
    constructor; [now constructor | auto].
Qed.

Lemma matches_qualifier (s : string) :
  matches (Opt (Cat (Plus NonSpace) (Chr " "))) s <-> Chars.qualifier s.
Proof.
  unfold Opt, Plus, NonSpace, Chars.qualifier. split.
  - intros H. inversion H as [ | | | r1 r2 s0 H1 | r1 r2 s0 H1 | | ]; subst.
    + right. apply matches_Cat_inv in H1 as (w & b & -> & Hw & Hb).
      apply matches_Cat_inv in Hw as (w1 & w2 & -> & Hw1 & Hw2).
      apply matches_Star_Class in Hw2.
      inversion Hw1 as [ | p a Hp | | | | | ]; subst.
      inversion Hb as [ | p' a' Hp' | | | | | ]; subst.
      apply Ascii.eqb_eq in Hp' as <-.
      exists (String a "" ++ w2)%string. repeat split.
      * discriminate.
      * cbn. now rewrite Hp, Hw2.
    + left. now inversion H1.
  - intros [-> | (w & Hne & Hw & ->)].
    + apply MAltR. constructor.
    + apply MAltL. destruct w as [|c w]; [congruence|].
      cbn [Chars.every] in Hw. apply andb_true_iff in Hw as [Hc Hw].
      constructor.
      * change (String c w) with (String c "" ++ w)%string.
        constructor; [now constructor | now apply matches_Star_Class].
      * constructor. apply Ascii.eqb_refl.
Qed.

(** X11.  For a name that is a run of literals, the pattern of
    [isFunction] accepts exactly the lines made of any text, the name
    between single quotes, " is a ", at most one word followed by a blank,
    "function from the file ", and any text - text holding no line
    feed or carriage return. *)
Theorem isFuncRegex_accepts (name line : string) :
  isLiteral name = true ->
  (test (Expression.isFuncRegex name) line = true <->
   exists before kind after,
     line = (before ++ "'" ++ name ++ "' is a " ++ kind
             ++ "function from the file " ++ after)%string /\
     Chars.oneLine before = true /\
     Chars.qualifier kind /\
     Chars.oneLine after = true).
Proof.
  intros _. rewrite test_matches. unfold Expression.isFuncRegex. split.
  - intros H.
    apply matches_Cat_inv in H as (before & s1 & -> & Hb & H).
    apply matches_Cat_inv in H as (l1 & s2 & -> & Hl1 & H).
    apply matches_Cat_inv in H as (kind & s3 & -> & Hk & H).
    apply matches_Cat_inv in H as (l2 & after & -> & Hl2 & Ha).
    apply matches_Star_Class in Hb, Ha.
    apply matches_Lit in Hl1 as ->. apply matches_Lit in Hl2 as ->.
    apply matches_qualifier in Hk.
    exists before, kind, after. repeat split; auto.
    now rewrite !append_assoc.
  - intros (before & kind & after & -> & Hb & Hk & Ha).
    constructor; [now apply matches_Star_Class|].
    replace ("'" ++ name ++ "' is a " ++ kind ++ "function from the file "
             ++ after)%string
      with (("'" ++ name ++ "' is a ") ++ kind ++ "function from the file "
            ++ after)%string
      by now rewrite !append_assoc.
    constructor; [now apply matches_Lit|].
    constructor; [now apply matches_qualifier|].
    constructor; [now apply matches_Lit | now apply matches_Star_Class].
Qed.

(** ** A sample session again *)

Local Open Scope string_scope.

(** A command waited for, a function query, an evaluation and a bare
    wait, made in a row on a fresh session and answered in that order. *)
Lemma requests_resolve_in_order_witness :
  let descriptor := "'sin' is a built-in function from the file /x/sin.m" in
  let xs :=
    [Requests.mkExchange (Requests.WaitSend "x = 1" 1) ["x = 1"] 0;
     Requests.mkExchange (Requests.IsFunction "sin" 2) [descriptor] 1;
     Requests.mkExchange (Requests.Evaluate "1+1" 3) ["ans = 2"] 0;
     Requests.mkExchange (Requests.WaitSync 4) [] 0]%list in
  let rt' :=
    Session.deliver Sample.MODULE_NAME
      (Requests.responses Sample.MODULE_NAME 1 xs)
      (Requests.issueAll Sample.MODULE_NAME xs Sample.fresh) in
  isLiteral Sample.MODULE_NAME = true /\
  forallb (fun x => Requests.literal (Requests.request x)) xs = true /\
  Runtime._inputHandler Sample.fresh = []%list /\
  Requests.delimited Sample.MODULE_NAME 1 xs = true /\
  Session.calls (Runtime.effects rt')
  = [(1, None); (2, Some descriptor); (3, Some "ans = 2"); (4, None)]%list /\
  Runtime._inputHandler rt' = []%list.
Proof.
  intros descriptor xs rt'.
  split; [reflexivity|]. split; [reflexivity|]. split; [reflexivity|].
  split; [reflexivity|].
  exact (requests_resolve_in_order Sample.MODULE_NAME eq_refl Sample.fresh
           xs []%list eq_refl eq_refl eq_refl).
Defined.


Lemma SYNC_REGEX_accepts_witness :
  isLiteral Sample.MODULE_NAME = true /\
  testPrefix (Runtime.SYNC_REGEX Sample.MODULE_NAME)
    "debug> ssvsc::OctaveDebugger and more" = true /\
  testPrefix (Runtime.SYNC_REGEX Sample.MODULE_NAME)
    "debug>  vsc::OctaveDebugger:4" = false.
Proof.
  split; [reflexivity|].
  destruct (SYNC_REGEX_accepts Sample.MODULE_NAME eq_refl) as (A & _ & C).
  split.
  - apply A. exists 1, 2, " and more". reflexivity.
  - exact (C 1 ":4").
Defined.

(** The first answer of a session: the buffer was never assigned, and
    the log gets "undefined" glued to the line. *)
Lemma exchange_flushes_buffer_witness :
  let rt := Runtime.evaluate Sample.MODULE_NAME "1+1" (External 7) Sample.fresh in
  let rt' :=
    Session.deliver Sample.MODULE_NAME
      ["ans = 2"; "debug> vsc::OctaveDebugger:2"]%list rt in
  isLiteral Sample.MODULE_NAME = true /\
  Runtime._inputHandler rt
  = [EvaluateHandler (Runtime.syncRegEx Sample.MODULE_NAME 2) "" (External 7)]%list /\
  Logs.logged (Runtime.effects rt')
  = (Logs.logged (Runtime.effects rt) ++ [Some "undefinedans = 2"])%list /\
  Session.warnings (Runtime.effects rt') = []%list /\
  Runtime._stdoutBuffer rt' = Some "".
Proof.
  intros rt rt'. split; [reflexivity|]. split; [reflexivity|].
  destruct (exchange_flushes_buffer Sample.MODULE_NAME eq_refl rt
              (EvaluateHandler (Runtime.syncRegEx Sample.MODULE_NAME 2) ""
                 (External 7))
              []%list 2%N 7 1 ["ans = 2"]%list eq_refl eq_refl eq_refl eq_refl)
    as (L & W & B & _).
  split; [exact L|]. split; [exact W | exact B].
Defined.

Lemma idle_session_warns_witness :
  let rt' :=
    Session.deliver Sample.MODULE_NAME
      ["hello"; "debug> vsc::OctaveDebugger:9"; "bye"]%list Sample.fresh in
  isLiteral Sample.MODULE_NAME = true /\
  Runtime._inputHandler Sample.fresh = []%list /\
  Runtime._stdoutHandled Sample.fresh = false /\
  Session.warnings (Runtime.effects rt') = [Some "hello"; Some "bye"]%list.
Proof.
  intros rt'. split; [reflexivity|]. split; [reflexivity|].
  split; [reflexivity|].
  exact (proj1 (idle_session_warns Sample.MODULE_NAME eq_refl Sample.fresh
                  ["hello"; "debug> vsc::OctaveDebugger:9"; "bye"]%list
                  eq_refl eq_refl)).
Defined.

Lemma expression_evaluate_reports_function_witness :
  let descriptor := "'sin' is a built-in function from the file /x/sin.m" in
  let rt' :=
    Session.deliver Sample.MODULE_NAME
      [descriptor; "vsc::OctaveDebugger:2"]%list
      (Expression.evaluate Sample.MODULE_NAME "sin" false (External 5)
         Sample.fresh) in
  isLiteral Sample.MODULE_NAME = true /\
  isLiteral "sin" = true /\
  Session.calls (Runtime.effects rt') = [(5, Some descriptor)]%list /\
  Session.writes (Runtime.effects rt')
  = (Session.writes (Runtime.effects Sample.fresh)
     ++ [("which sin" ++ LF)%string;
         (Runtime.echo "vsc::OctaveDebugger:2" ++ LF)%string])%list.
Proof.
  intros descriptor rt'. split; [reflexivity|]. split; [reflexivity|].
  destruct (expression_evaluate_reports_function Sample.MODULE_NAME eq_refl
              Sample.fresh "sin" 5 0 [descriptor]%list descriptor
              eq_refl eq_refl eq_refl eq_refl) as (C & _ & W).
  split; [exact C | exact W].
Defined.

Lemma expression_evaluate_falls_back_witness :
  let asked :=
    Session.deliver Sample.MODULE_NAME ["vsc::OctaveDebugger:2"]%list
      (Expression.evaluate Sample.MODULE_NAME "x" false (External 5)
         Sample.fresh) in
  let rt' :=
    Session.deliver Sample.MODULE_NAME
      ["x = 3"; "vsc::OctaveDebugger:4"]%list asked in
  isLiteral Sample.MODULE_NAME = true /\
  isLiteral "x" = true /\
  Session.calls (Runtime.effects asked) = []%list /\
  Session.writes (Runtime.effects asked)
  = (Session.writes (Runtime.effects Sample.fresh)
     ++ [("which x" ++ LF)%string;
         (Runtime.echo "vsc::OctaveDebugger:2" ++ LF)%string;
         ("x" ++ LF)%string;
         (Runtime.echo "vsc::OctaveDebugger:4" ++ LF)%string])%list /\
  Session.calls (Runtime.effects rt') = [(5, Some "x = 3")]%list.
Proof.
  intros asked rt'. split; [reflexivity|]. split; [reflexivity|].
  destruct (expression_evaluate_falls_back Sample.MODULE_NAME eq_refl
              Sample.fresh "x" 5 0 0 []%list ["x = 3"]%list
              eq_refl eq_refl eq_refl eq_refl eq_refl) as (C & W & C' & _).
  split; [exact C|]. split; [exact W | exact C'].
Defined.

Lemma log_off_prints_nothing_witness :
  let ops :=
    [Session.CallEvaluate "1+1" (External 1);
     Session.StdoutLine "ans = 2";
     Session.StdoutLine "vsc::OctaveDebugger:2";
     Session.StderrLine "warning: x";
     Session.CallSetLog false;
     Session.CallDisconnect]%list in
  forallb Logs.keepsLogOff ops = true /\
  Logs.printed
    (Runtime.effects
       (Session.run Sample.MODULE_NAME ops
          (Runtime.new "octave-cli" "/src" false)))
  = []%list.
Proof.
  intros ops. split; [reflexivity|].
  exact (proj1 (log_off_prints_nothing Sample.MODULE_NAME "octave-cli" "/src"
                  ops eq_refl)).
Defined.

(** Two handlers wait; a line of output leaves both where they are, and
    the marker of the first leaves the second at the front. *)
Lemma line_keeps_queue_order_witness :
  let rt :=
    Runtime.evaluate Sample.MODULE_NAME "y" (External 2)
      (Runtime.evaluate Sample.MODULE_NAME "x" (External 1) Sample.fresh) in
  let second :=
    EvaluateHandler (Runtime.syncRegEx Sample.MODULE_NAME 4) "" (External 2) in
  Runtime._inputHandler rt
  = [EvaluateHandler (Runtime.syncRegEx Sample.MODULE_NAME 2) "" (External 1);
     second]%list /\
  (exists h',
      Runtime._inputHandler (Runtime.onStdout Sample.MODULE_NAME "x = 1" rt)
      = [h'; second]%list /\
      Handler.marker h' = Runtime.syncRegEx Sample.MODULE_NAME 2 /\
      Handler.callback h' = External 1) /\
  (exists added,
      Runtime._inputHandler
        (Runtime.onStdout Sample.MODULE_NAME "vsc::OctaveDebugger:2" rt)
      = ([second] ++ added)%list /\
      length added <= 1).
Proof.
  intros rt second.
  set (first := EvaluateHandler (Runtime.syncRegEx Sample.MODULE_NAME 2) ""
                  (External 1)).
  assert (Q : Runtime._inputHandler rt = [first; second]%list) by reflexivity.
  assert (T : test (Handler.marker first) "x = 1" = false)
    by (vm_compute; reflexivity).
  assert (T' : test (Handler.marker first) "vsc::OctaveDebugger:2" = true)
    by (vm_compute; reflexivity).
  split; [exact Q|]. split.
  - pose proof (line_keeps_queue_order Sample.MODULE_NAME rt "x = 1"
                  first [second]%list Q) as H.
    rewrite T in H. exact H.
  - pose proof (line_keeps_queue_order Sample.MODULE_NAME rt
                  "vsc::OctaveDebugger:2" first [second]%list Q) as H.
    rewrite T' in H. exact H.
Defined.

Lemma isFuncRegex_accepts_witness :
  isLiteral "sin" = true /\
  test (Expression.isFuncRegex "sin")
    "debug> 'sin' is a built-in function from the file /x/sin.m" = true.
Proof.
  split; [reflexivity|].
  apply (isFuncRegex_accepts "sin" _ eq_refl).
  exists "debug> ", "built-in ", "/x/sin.m".
  split; [reflexivity|]. split; [reflexivity|]. split; [|reflexivity].
  right. exists "built-in". split; [discriminate|]. split; reflexivity.
Defined.
